(** * Release-workflow version utilities

    A shallow embedding of [.github/scripts/version_utils.py] and the
    properties of its five operations and of its command-line dispatcher.

    The file has three parts:
    - [Py]: the fragment of the Python 3 runtime the script calls
      ([str.strip], [str.split], [int], [re.match], exceptions, [print],
      [open], [subprocess.run]);
    - [VersionUtils]: the script itself, function by function;
    - the properties, stated over these definitions.

    A Python [str] is a sequence of Unicode code points, so strings are
    lists of code points here and not lists of bytes: [str.strip], [int]
    and the regular-expression class [\d] disagree with their ASCII
    namesakes precisely outside ASCII letters and digits. *)

From Stdlib Require Import ZArith NArith List Bool Lia Ascii String.
Import ListNotations.

Module Py.

Local Open Scope N_scope.

(** ** Strings *)

Definition char := N.
Definition str := list char.

(** An ASCII literal of the source, as a [str]. *)
Definition lit (s : string) : str := map N_of_ascii (list_ascii_of_string s).

Definition str_eqb (a b : str) : bool :=
  if list_eq_dec N.eq_dec a b then true else false.

(** Truth value of a [str]: the empty string is false. *)
Definition truthy (s : str) : bool :=
  match s with [] => false | _ :: _ => true end.

(** [Py_UNICODE_ISSPACE]: what [str.strip()] and [str.isspace()] call white
    space (bidirectional type WS, B or S, or general category Zs). *)
Definition Py_UNICODE_ISSPACE (c : char) : bool :=
  ((0x09 <=? c) && (c <=? 0x0D)) || ((0x1C <=? c) && (c <=? 0x20))
  || (c =? 0x85) || (c =? 0xA0) || (c =? 0x1680)
  || ((0x2000 <=? c) && (c <=? 0x200A))
  || (c =? 0x2028) || (c =? 0x2029) || (c =? 0x202F) || (c =? 0x205F)
  || (c =? 0x3000).

(** [Py_ISSPACE]: the C-locale [isspace] that [PyLong_FromString] skips. *)
Definition Py_ISSPACE (c : char) : bool :=
  ((0x09 <=? c) && (c <=? 0x0D)) || (c =? 0x20).

(** The code points of the digit zero of every script of Unicode 14.0
    (general category Nd); the nine code points after each are its digits
    one to nine.  This is the table behind [str.isdecimal], [\d] and the
    digit conversion of [int]. *)
Definition decimal_zeros : list N :=
  [ 0x30; 0x660; 0x6F0; 0x7C0; 0x966; 0x9E6; 0xA66; 0xAE6; 0xB66; 0xBE6;
    0xC66; 0xCE6; 0xD66; 0xDE6; 0xE50; 0xED0; 0xF20; 0x1040; 0x1090;
    0x17E0; 0x1810; 0x1946; 0x19D0; 0x1A80; 0x1A90; 0x1B50; 0x1BB0;
    0x1C40; 0x1C50; 0xA620; 0xA8D0; 0xA900; 0xA9D0; 0xA9F0; 0xAA50;
    0xABF0; 0xFF10; 0x104A0; 0x10D30; 0x11066; 0x110F0; 0x11136; 0x111D0;
    0x112F0; 0x11450; 0x114D0; 0x11650; 0x116C0; 0x11730; 0x118E0;
    0x11950; 0x11C50; 0x11D50; 0x11DA0; 0x16A60; 0x16AC0; 0x16B50;
    0x1D7CE; 0x1D7D8; 0x1D7E2; 0x1D7EC; 0x1D7F6; 0x1E140; 0x1E2F0;
    0x1E950; 0x1FBF0 ].

Fixpoint decimal_in (zeros : list N) (c : char) : option N :=
  match zeros with
  | [] => None
  | z :: zs =>
      if (z <=? c) && (c <=? z + 9) then Some (c - z) else decimal_in zs c
  end.

(** [Py_UNICODE_TODECIMAL]: the value of a decimal digit, if it is one. *)
Definition Py_UNICODE_TODECIMAL (c : char) : option N :=
  decimal_in decimal_zeros c.

Definition Py_UNICODE_ISDECIMAL (c : char) : bool :=
  match Py_UNICODE_TODECIMAL c with Some _ => true | None => false end.

(** [s.lstrip()], [s.rstrip()] and [s.strip()], over a notion of space. *)
Fixpoint lstrip_with (space : char -> bool) (s : str) : str :=
  match s with
  | [] => []
  | c :: s' => if space c then lstrip_with space s' else s
  end.

Definition rstrip_with (space : char -> bool) (s : str) : str :=
  rev (lstrip_with space (rev s)).

Definition strip_with (space : char -> bool) (s : str) : str :=
  rstrip_with space (lstrip_with space s).

Definition strip (s : str) : str := strip_with Py_UNICODE_ISSPACE s.

(** [s.split(sep)] for a one-character separator: never empty, and the
    empty string splits into one empty field. *)
Fixpoint split (sep : char) (s : str) : list str :=
  match s with
  | [] => [[]]
  | c :: s' =>
      if c =? sep then [] :: split sep s'
      else match split sep s' with
           | p :: ps => (c :: p) :: ps
           | [] => [[c]]
           end
  end.

(** [x in xs] for a list of strings. *)
Definition contains (xs : list str) (x : str) : bool := existsb (str_eqb x) xs.

(** ** Exceptions *)

Inductive exn : Type :=
| ValueError (msg : str)            (* raised by the script with a message *)
| InvalidLiteral (literal : str)    (* the ValueError of [int] *)
| IndexError
| FileNotFoundError (path : str)
| CalledProcessError (cmd : list str) (returncode : Z)
| OtherException (text : str)       (* any other subclass of Exception *)
| SystemExit (code : Z).            (* a BaseException, not an Exception *)

Definition is_ValueError (e : exn) : bool :=
  match e with ValueError _ | InvalidLiteral _ => true | _ => false end.

Definition is_Exception (e : exn) : bool :=
  match e with SystemExit _ => false | _ => true end.

Inductive result (A : Type) : Type :=
| Ok (a : A)
| Raise (e : exn).
Arguments Ok {A} a.
Arguments Raise {A} e.

(** ** [int(s)] in base ten

    [PyLong_FromUnicodeObject] first rewrites the string to ASCII: code
    points below 128 are kept, other white space becomes a blank, other
    decimal digits become their ASCII digit, anything else a question
    mark.  [PyLong_FromString] then skips [Py_ISSPACE] characters, accepts
    one sign, and scans the run of digits, in which single underscores may
    separate digits.  A run with more digits than the interpreter allows
    is refused before it is converted; after the run only white space may
    follow.  Every refusal is a ValueError: [InvalidLiteral] carries the
    argument when the literal is malformed, and the run of digits when
    they are too many, which is all that the message then depends on. *)

(** [sys.get_int_max_str_digits()] as the interpreter starts: 4300. *)
Definition int_max_str_digits : N := 4300.

Definition to_ascii (c : char) : char :=
  if c <? 128 then c
  else if Py_UNICODE_ISSPACE c then 0x20
  else match Py_UNICODE_TODECIMAL c with
       | Some d => 0x30 + d
       | None => 0x3F
       end.

Definition is_ascii_digit (c : char) : bool := (0x30 <=? c) && (c <=? 0x39).

(** The longest prefix of characters satisfying [p], and what follows. *)
Fixpoint span (p : char -> bool) (s : str) : str * str :=
  match s with
  | [] => ([], [])
  | c :: s' =>
      if p c then let '(run, rest) := span p s' in (c :: run, rest)
      else ([], s)
  end.

(** [after_digit] tells whether the previous character was a digit: an
    underscore is legal only then, and the literal must end on a digit. *)
Fixpoint long_digits (s : str) (after_digit : bool) (acc : Z) : option Z :=
  match s with
  | [] => if after_digit then Some acc else None
  | c :: s' =>
      if is_ascii_digit c then
        long_digits s' true (10 * acc + Z.of_N (c - 0x30))
      else if (c =? 0x5F) && after_digit then long_digits s' false acc
      else None
  end.

Definition count_digits (run : str) : N :=
  N.of_nat (List.length (filter is_ascii_digit run)).

Definition int (s : str) : result Z :=
  let body := strip_with Py_ISSPACE (map to_ascii s) in
  let '(negative, unsigned) :=
    match body with
    | c :: r =>
        if c =? 0x2B then (false, r)
        else if c =? 0x2D then (true, r)
        else (false, body)
    | [] => (false, body)
    end in
  let '(run, rest) :=
    span (fun c => is_ascii_digit c || (c =? 0x5F)) unsigned in
  match long_digits run false 0 with
  | None => Raise (InvalidLiteral s)
  | Some n =>
      if int_max_str_digits <? count_digits run then Raise (InvalidLiteral run)
      else
        match rest with
        | [] => Ok (if negative then (- n)%Z else n)
        | _ :: _ => Raise (InvalidLiteral s)
        end
  end.

(** ** Regular expressions

    The constructs of [re] that the script's pattern uses.  The matcher
    walks the string from a position, as the engine does, and hands what
    is left to a continuation; [fuel] bounds the iterations of a star,
    each of which must consume a character. *)

Inductive regex : Type :=
| Bol                              (* ^ *)
| Eol                              (* $ *)
| Chr (c : char)                   (* a literal character *)
| Range (lo hi : char)             (* [lo-hi] *)
| Digit                            (* \d *)
| Cat (r1 r2 : regex)
| Alt (r1 r2 : regex)
| Star (r : regex)
| Group (r : regex).               (* ( ... ) *)

Definition cont := nat -> str -> bool.

Fixpoint star_loop (body : nat -> str -> cont -> bool) (fuel : nat)
    (pos : nat) (s : str) (k : cont) : bool :=
  match fuel with
  | O => false
  | S fuel' =>
      body pos s
        (fun pos' s' => (pos <? pos')%nat && star_loop body fuel' pos' s' k)
  end
  || k pos s.

Definition one_char (p : char -> bool) (pos : nat) (s : str) (k : cont) : bool :=
  match s with
  | c :: s' => p c && k (S pos) s'
  | [] => false
  end.

Fixpoint matches (r : regex) (pos : nat) (s : str) (k : cont) : bool :=
  match r with
  | Bol => (pos =? 0)%nat && k pos s
  | Eol =>
      (* the end of the string, or just before a final newline *)
      match s with
      | [] => k pos s
      | [c] => (c =? 0x0A) && k pos s
      | _ => false
      end
  | Chr c => one_char (N.eqb c) pos s k
  | Range lo hi => one_char (fun c => (lo <=? c) && (c <=? hi)) pos s k
  | Digit => one_char Py_UNICODE_ISDECIMAL pos s k
  | Cat r1 r2 => matches r1 pos s (fun pos' s' => matches r2 pos' s' k)
  | Alt r1 r2 => matches r1 pos s k || matches r2 pos s k
  | Star r' => star_loop (matches r') (List.length s) pos s k
  | Group r' => matches r' pos s k
  end.

(** [bool(re.match(pattern, s))]: a match anchored at the start of [s],
    ending anywhere. *)
Definition re_match (pattern : regex) (s : str) : bool :=
  matches pattern 0 s (fun _ _ => true).

(** ** Computations that may raise *)

Definition rbind {A B} (c : result A) (k : A -> result B) : result B :=
  match c with
  | Ok a => k a
  | Raise e => Raise e
  end.

Declare Scope res_scope.
Delimit Scope res_scope with res.
Notation "x <- c1 ;; c2" := (rbind c1 (fun x => c2))
  (at level 61, c1 at next level, right associativity) : res_scope.

(** [xs[i]]: an index out of range raises. *)
Definition item (xs : list str) (i : nat) : result str :=
  match nth_error xs i with
  | Some x => Ok x
  | None => Raise IndexError
  end.

(** ** The world outside the process

    What the file system and the version-control tool answer is not the
    script's to decide: both are oracles.  Each operation of the script
    runs a given command line at most once, so a function of the command
    line loses nothing.  [exn_text] is the interpreter's wording of the
    exceptions it raises itself, which quotes their arguments.  Writing
    to standard output is taken to succeed, and interrupts and exhausted
    resources are left out. *)

Inductive file_outcome : Type :=
| FileText (text : str)             (* what [f.read()] returns *)
| FileMissing                       (* FileNotFoundError *)
| FileFailure (text : str).         (* any other error of open or read *)

Inductive proc_outcome : Type :=
| Completed (returncode : Z) (stdout : str)
| NotRun (text : str).              (* the tool could not be run or read *)

Record env : Type := {
  read_file : str -> file_outcome;
  run_process : list str -> proc_outcome;
  exn_text : exn -> str
}.

(** What the process has written and run so far; one entry of [sys_stdout]
    or [sys_stderr] per call of [print]. *)
Record world : Type := {
  sys_stdout : list str;
  sys_stderr : list str;
  spawned : list (list str)
}.

Definition initial : world :=
  {| sys_stdout := []; sys_stderr := []; spawned := [] |}.

Definition M (A : Type) : Type := env -> world -> result A * world.

Definition ret {A} (a : A) : M A := fun _ w => (Ok a, w).

Definition bind {A B} (c : M A) (k : A -> M B) : M B :=
  fun rt w =>
    match c rt w with
    | (Ok a, w') => k a rt w'
    | (Raise e, w') => (Raise e, w')
    end.

Definition raise {A} (e : exn) : M A := fun _ w => (Raise e, w).

Definition lift {A} (c : result A) : M A := fun _ w => (c, w).

(** [try: body except ... as e: handler e]; a handler re-raises what its
    clauses do not catch. *)
Definition try_except {A} (body : M A) (handler : exn -> M A) : M A :=
  fun rt w =>
    match body rt w with
    | (Ok a, w') => (Ok a, w')
    | (Raise e, w') => handler e rt w'
    end.

Declare Scope io_scope.
Delimit Scope io_scope with io.
Notation "x <- c1 ;; c2" := (bind c1 (fun x => c2))
  (at level 61, c1 at next level, right associativity) : io_scope.
Notation "c1 ;; c2" := (bind c1 (fun _ => c2))
  (at level 61, right associativity) : io_scope.

(** [print(s)]: one more entry on standard output, whatever the number of
    lines in [s]; the write is taken to succeed. *)
Definition print (s : str) : M unit :=
  fun _ w =>
    (Ok tt, {| sys_stdout := sys_stdout w ++ [s];
               sys_stderr := sys_stderr w;
               spawned := spawned w |}).

(** [str(e)] *)
Definition str_of_exn (e : exn) : M str :=
  fun rt w =>
    (Ok match e with
        | ValueError msg => msg
        | OtherException text => text
        | _ => exn_text rt e
        end, w).

(** [with open(path, 'r') as f: f.read()] *)
Definition open_read (path : str) : M str :=
  fun rt w =>
    match read_file rt path with
    | FileText text => (Ok text, w)
    | FileMissing => (Raise (FileNotFoundError path), w)
    | FileFailure text => (Raise (OtherException text), w)
    end.

Record CompletedProcess : Type := {
  returncode : Z;
  stdout : str
}.

(** [subprocess.run(cmd, capture_output=True, text=True, check=check)] *)
Definition subprocess_run (cmd : list str) (check : bool)
  : M CompletedProcess :=
  fun rt w =>
    let w' := {| sys_stdout := sys_stdout w;
                 sys_stderr := sys_stderr w;
                 spawned := spawned w ++ [cmd] |} in
    match run_process rt cmd with
    | Completed rc out =>
        if check && negb (rc =? 0)%Z
        then (Raise (CalledProcessError cmd rc), w')
        else (Ok {| returncode := rc; stdout := out |}, w')
    | NotRun text => (Raise (OtherException text), w')
    end.

(** [sys.exit(code)] *)
Definition sys_exit {A} (code : Z) : M A := raise (SystemExit code).

(** Running a script to its exit status: [SystemExit] carries it, a normal
    return is status 0, and any other exception reaches the top level,
    where the interpreter writes a traceback to standard error and exits
    with status 1. *)
Definition run_script (script : M unit) (rt : env) (w : world) : Z * world :=
  match script rt w with
  | (Ok _, w') => (0%Z, w')
  | (Raise (SystemExit code), w') => (code, w')
  | (Raise e, w') =>
      (1%Z, {| sys_stdout := sys_stdout w';
               sys_stderr := sys_stderr w' ++ [exn_text rt e];
               spawned := spawned w' |})
  end.

End Py.

Module VersionUtils.

Import Py.
Local Open Scope io_scope.
Local Open Scope Z_scope.

Definition chr (a : ascii) : char := N_of_ascii a.

(** One number of the pattern: a lone zero, or a digit from one to nine
    followed by any number of [\d]. *)
Definition number : regex :=
  Group (Alt (Chr (chr "0")) (Cat (Range (chr "1") (chr "9")) (Star Digit))).

(** The pattern of the source: start of string, three numbers separated
    by literal dots, [$]. *)
Definition pattern : regex :=
  Cat Bol
    (Cat number (Cat (Chr (chr "."))
      (Cat number (Cat (Chr (chr "."))
        (Cat number Eol))))).

Definition validate_semantic_version (version : str) : bool :=
  re_match pattern (strip version).

Definition read_version_from_file (file_path : str) : M (option str) :=
  try_except
    (text <- open_read file_path ;;
     let version := strip text in
     if validate_semantic_version version then ret (Some version)
     else
       print (lit "Error: Invalid semantic version format in " ++ file_path
              ++ lit ": " ++ version) ;;
       ret None)
    (fun e =>
       match e with
       | FileNotFoundError _ =>
           print (lit "Error: " ++ file_path ++ lit " file not found") ;;
           ret None
       | _ =>
           if is_Exception e then
             text <- str_of_exn e ;;
             print (lit "Error reading " ++ file_path ++ lit ": " ++ text) ;;
             ret None
           else raise e
       end).

Definition git_tag_exists (version : str) : M bool :=
  let tag_name := lit "v" ++ version in
  try_except
    (result <- subprocess_run [lit "git"; lit "tag"; lit "-l"; tag_name] false ;;
     if (returncode result =? 0) && truthy (strip (stdout result)) then ret true
     else
       result <- subprocess_run
                   [lit "git"; lit "ls-remote"; lit "--tags"; lit "origin";
                    tag_name] false ;;
       ret ((returncode result =? 0)
            && negb (str_eqb (strip (stdout result)) (lit ""))))
    (fun e =>
       if is_Exception e then
         text <- str_of_exn e ;;
         print (lit "Error checking git tag existence: " ++ text) ;;
         ret false
       else raise e).

(** A tuple [(a, b, c) < (a', b', c')]: the first position where the two
    differ decides. *)
Definition tuple_lt (x y : Z * Z * Z) : bool :=
  let '(a, b, c) := x in
  let '(a', b', c') := y in
  if negb (a =? a') then a <? a'
  else if negb (b =? b') then b <? b'
  else if negb (c =? c') then c <? c'
  else false.

Definition tuple_gt (x y : Z * Z * Z) : bool :=
  let '(a, b, c) := x in
  let '(a', b', c') := y in
  if negb (a =? a') then a >? a'
  else if negb (b =? b') then b >? b'
  else if negb (c =? c') then c >? c'
  else false.

Definition parse_version (version : str) : result (Z * Z * Z) :=
  (let parts := split (chr ".") version in
   p0 <- item parts 0 ;; major <- int p0 ;;
   p1 <- item parts 1 ;; minor <- int p1 ;;
   p2 <- item parts 2 ;; patch <- int p2 ;;
   Ok (major, minor, patch))%res.

Definition compare_versions (version1 version2 : str) : result Z :=
  if negb (validate_semantic_version version1)
     || negb (validate_semantic_version version2)
  then Raise (ValueError (lit "Both versions must be valid semantic versions"))
  else
    (v1_parts <- parse_version version1 ;;
     v2_parts <- parse_version version2 ;;
     if tuple_lt v1_parts v2_parts then Ok (-1)
     else if tuple_gt v1_parts v2_parts then Ok 1
     else Ok 0)%res.

Definition get_git_commit_version_change (commit_hash : str) : M (option str) :=
  try_except
    (result <- subprocess_run
                 [lit "git"; lit "diff"; lit "--name-only";
                  commit_hash ++ lit "^"; commit_hash] true ;;
     let changed_files := split 0x0A%N (strip (stdout result)) in
     if contains changed_files (lit "VERSION") then
       result <- subprocess_run
                   [lit "git"; lit "show"; commit_hash ++ lit ":VERSION"] true ;;
       let version := strip (stdout result) in
       if validate_semantic_version version then ret (Some version)
       else
         print (lit "Error: Invalid version format in commit " ++ commit_hash
                ++ lit ": " ++ version) ;;
         ret None
     else ret None)
    (fun e =>
       match e with
       | CalledProcessError _ _ =>
           text <- str_of_exn e ;;
           print (lit "Error checking git commit changes: " ++ text) ;;
           ret None
       | _ =>
           if is_Exception e then
             text <- str_of_exn e ;;
             print (lit "Unexpected error: " ++ text) ;;
             ret None
           else raise e
       end).

Definition usage : list str :=
  [ lit "Usage: python version_utils.py <command> [args...]";
    lit "Commands:";
    lit "  validate <version>     - Validate semantic version format";
    lit "  check-tag <version>    - Check if git tag exists for version";
    lit "  read-version [file]    - Read and validate version from file";
    lit "  compare <v1> <v2>      - Compare two versions";
    lit "  check-commit [hash]    - Check if VERSION changed in commit" ].

Fixpoint print_all (lines : list str) : M unit :=
  match lines with
  | [] => ret tt
  | l :: ls => print l ;; print_all ls
  end.

Definition check_mark : str := [0x2713%N].
Definition cross_mark : str := [0x2717%N].

(** [main], with [sys.argv] as its argument. *)
Definition main (argv : list str) : M unit :=
  if (List.length argv <? 2)%nat then
    print_all usage ;; sys_exit 1
  else
    command <- lift (item argv 1) ;;
    if str_eqb command (lit "validate") then
      if negb (List.length argv =? 3)%nat then
        print (lit "Usage: python version_utils.py validate <version>") ;;
        sys_exit 1
      else
        version <- lift (item argv 2) ;;
        if validate_semantic_version version then
          print (check_mark ++ lit " Version " ++ version ++ lit " is valid") ;;
          sys_exit 0
        else
          print (cross_mark ++ lit " Version " ++ version ++ lit " is invalid") ;;
          sys_exit 1
    else if str_eqb command (lit "check-tag") then
      if negb (List.length argv =? 3)%nat then
        print (lit "Usage: python version_utils.py check-tag <version>") ;;
        sys_exit 1
      else
        version <- lift (item argv 2) ;;
        exists_ <- git_tag_exists version ;;
        if (exists_ : bool) then
          print (cross_mark ++ lit " Tag v" ++ version ++ lit " already exists") ;;
          sys_exit 1
        else
          print (check_mark ++ lit " Tag v" ++ version ++ lit " does not exist") ;;
          sys_exit 0
    else if str_eqb command (lit "read-version") then
      file_path <- (if (2 <? List.length argv)%nat then lift (item argv 2)
                    else ret (lit "VERSION")) ;;
      version <- read_version_from_file file_path ;;
      match version with
      | Some v =>
          if truthy v then print v ;; sys_exit 0 else sys_exit 1
      | None => sys_exit 1
      end
    else if str_eqb command (lit "compare") then
      if negb (List.length argv =? 4)%nat then
        print (lit "Usage: python version_utils.py compare <version1> <version2>") ;;
        sys_exit 1
      else
        v1 <- lift (item argv 2) ;;
        v2 <- lift (item argv 3) ;;
        try_except
          (result <- lift (compare_versions v1 v2) ;;
           (if result =? -1 then print (v1 ++ lit " < " ++ v2)
            else if result =? 0 then print (v1 ++ lit " = " ++ v2)
            else print (v1 ++ lit " > " ++ v2)) ;;
           sys_exit 0)
          (fun e =>
             if is_ValueError e then
               text <- str_of_exn e ;;
               print (lit "Error: " ++ text) ;;
               sys_exit 1
             else raise e)
    else if str_eqb command (lit "check-commit") then
      commit_hash <- (if (2 <? List.length argv)%nat then lift (item argv 2)
                      else ret (lit "HEAD")) ;;
      version <- get_git_commit_version_change commit_hash ;;
      match version with
      | Some v =>
          if truthy v then print v ;; sys_exit 0
          else print (lit "No version change detected") ;; sys_exit 1
      | None =>
          print (lit "No version change detected") ;; sys_exit 1
      end
    else
      print (lit "Unknown command: " ++ command) ;;
      sys_exit 1.

End VersionUtils.

(** * Properties *)

Import Py VersionUtils.

(** ** Vocabulary of the statements *)

(** A string is trimmed when neither its first nor its last character is
    white space. *)
Definition trimmed (space : char -> bool) (t : str) : bool :=
  match t with
  | [] => true
  | c :: _ => negb (space c) && negb (space (last t c))
  end.

(** The numbers the pattern accepts, read off the regular expression: a
    lone ASCII zero, or an ASCII digit from one to nine followed by
    decimal digits of any script. *)
Definition number_b (g : str) : bool :=
  match g with
  | [] => false
  | c :: ds =>
      (N.eqb c 0x30 && match ds with [] => true | _ => false end)
      || ((0x31 <=? c)%N && (c <=? 0x39)%N && forallb Py_UNICODE_ISDECIMAL ds)
  end.

Definition dotted (a b c : str) : str := a ++ 0x2E%N :: b ++ 0x2E%N :: c.

Definition version_shape (t : str) : Prop :=
  exists a b c,
    t = dotted a b c /\
    number_b a = true /\ number_b b = true /\ number_b c = true.

(** The format in the words of the specification: three dot-separated
    groups, each the single digit 0 or a sequence of the digits 0 to 9
    that does not start with 0. *)
Definition spec_digit (c : char) : bool := (0x30 <=? c)%N && (c <=? 0x39)%N.

Definition spec_group (g : str) : bool :=
  match g with
  | [] => false
  | c :: ds =>
      (N.eqb c 0x30 && match ds with [] => true | _ => false end)
      || (negb (N.eqb c 0x30) && forallb spec_digit g)
  end.

Definition spec_version_format (t : str) : Prop :=
  exists a b c,
    t = dotted a b c /\
    spec_group a = true /\ spec_group b = true /\ spec_group c = true.

(** The value of a run of decimal digits, most significant first. *)
Definition digit_value (c : char) : Z :=
  match Py_UNICODE_TODECIMAL c with
  | Some d => Z.of_N d
  | None => 0
  end.

Definition decimal_value (g : str) : Z :=
  fold_left (fun acc c => (10 * acc + digit_value c)%Z) g 0%Z.

(** A group of digits that [int] converts: no more digits than the
    interpreter allows. *)
Definition digits_allowed (g : str) : bool :=
  (N.of_nat (List.length g) <=? int_max_str_digits)%N.

(** What [int] makes of a run of decimal digits standing alone. *)
Definition read_digits (g : str) : result Z :=
  if digits_allowed g then Ok (decimal_value g)
  else Raise (InvalidLiteral (map to_ascii g)).

(** A version string within the digit limit: no dot-separated group of
    its stripped form has more digits than the interpreter allows. *)
Definition within_digit_limit (v : str) : bool :=
  forallb digits_allowed (split 0x2E%N (strip v)).

(** A run of digits longer than [int] converts. *)
Definition over_limit (digits : str) : Prop :=
  (int_max_str_digits < N.of_nat (List.length digits))%N.

(** A one followed by 4300 zeros, then ".0.0": a version whose first
    group has 4301 digits. *)
Definition long_version : str := 0x31%N :: repeat 0x30%N 4300 ++ lit ".0.0".

(** Lexicographic order on (major, minor, patch). *)
Definition lex_lt (x y : Z * Z * Z) : Prop :=
  let '(a, b, c) := x in
  let '(a', b', c') := y in
  (a < a' \/ (a = a' /\ (b < b' \/ (b = b' /\ c < c'))))%Z.

(** The information separators U+001C to U+001F: [str.strip] removes them
    and [int] does not skip them. *)
Definition separator (c : char) : bool := (0x1C <=? c)%N && (c <=? 0x1F)%N.

Definition separator_free (s : str) : bool := forallb (fun c => negb (separator c)) s.

(** The command lines the script runs. *)
Definition local_tag_query (version : str) : list str :=
  [lit "git"; lit "tag"; lit "-l"; lit "v" ++ version].

Definition remote_tag_query (version : str) : list str :=
  [lit "git"; lit "ls-remote"; lit "--tags"; lit "origin"; lit "v" ++ version].

Definition diff_command (commit_hash : str) : list str :=
  [lit "git"; lit "diff"; lit "--name-only"; commit_hash ++ lit "^"; commit_hash].

Definition show_command (commit_hash : str) : list str :=
  [lit "git"; lit "show"; commit_hash ++ lit ":VERSION"].

(** A tag query lists the tag when it exits with status 0 and prints
    something other than white space; a query that fails lists nothing. *)
Definition tag_listed (answer : proc_outcome) : bool :=
  match answer with
  | Completed rc out => (rc =? 0)%Z && truthy (strip out)
  | NotRun _ => false
  end.

Definition ran (answer : proc_outcome) : bool :=
  match answer with
  | Completed _ _ => true
  | NotRun _ => false
  end.

(** A command succeeds when it runs and exits with status 0. *)
Definition succeeded (answer : proc_outcome) : option str :=
  match answer with
  | Completed rc out => if (rc =? 0)%Z then Some out else None
  | NotRun _ => None
  end.

(** The version file is among the changed files when one line of the
    stripped output of the diff is its name. *)
Definition version_file_changed (out : str) : bool :=
  contains (split 0x0A%N (strip out)) (lit "VERSION").

(** One more line on standard output, and nothing else. *)
Definition printed (w : world) (line : str) : world :=
  {| sys_stdout := sys_stdout w ++ [line];
     sys_stderr := sys_stderr w;
     spawned := spawned w |}.

(** One more command run, and nothing else. *)
Definition having_run (w : world) (cmd : list str) : world :=
  {| sys_stdout := sys_stdout w;
     sys_stderr := sys_stderr w;
     spawned := spawned w ++ [cmd] |}.

(** What the specification asks of a diagnostic, between the world before
    and the world after: one more line on standard error, and standard
    output as it was. *)
Definition reported_on_stderr (w w' : world) : Prop :=
  (exists line, sys_stderr w' = sys_stderr w ++ [line]) /\
  sys_stdout w' = sys_stdout w.

(** An environment with one file and no version-control tool. *)
Definition one_file (path : str) (answer : file_outcome) : env :=
  {| read_file := fun p => if str_eqb p path then answer else FileMissing;
     run_process := fun _ => NotRun (lit "git: not found");
     exn_text := fun _ => lit "" |}.

(** An environment without files, whose version-control tool answers from
    a table of command lines; a command not in the table exits with
    status 128. *)
Fixpoint answer_of (table : list (list str * proc_outcome)) (cmd : list str)
  : proc_outcome :=
  match table with
  | [] => Completed 128 []
  | (c, a) :: rest =>
      if list_eq_dec (list_eq_dec N.eq_dec) c cmd then a else answer_of rest cmd
  end.

Definition repository (table : list (list str * proc_outcome)) : env :=
  {| read_file := fun _ => FileMissing;
     run_process := answer_of table;
     exn_text := fun _ => lit "" |}.

(** The sub-commands of the dispatcher. *)
Definition commands : list str :=
  [lit "validate"; lit "check-tag"; lit "read-version"; lit "compare";
   lit "check-commit"].

(** The arities in the words of the specification: validate 1, check-tag
    1, read-version 0 to 1, compare 2, check-commit 0 to 1. *)
Definition spec_arity (command : str) (n : nat) : bool :=
  if str_eqb command (lit "validate") then (n =? 1)%nat
  else if str_eqb command (lit "check-tag") then (n =? 1)%nat
  else if str_eqb command (lit "read-version") then (n <=? 1)%nat
  else if str_eqb command (lit "compare") then (n =? 2)%nat
  else if str_eqb command (lit "check-commit") then (n <=? 1)%nat
  else false.

(** The three ways the reader fails. *)
Definition unreadable (answer : file_outcome) : bool :=
  match answer with
  | FileText text => negb (validate_semantic_version text)
  | FileMissing | FileFailure _ => true
  end.

(** The string "1" U+0663 ".0.0": a one, an ARABIC-INDIC DIGIT THREE, and
    two zero groups. *)
Definition arabic_indic_13_0_0 : str := [0x31; 0x663; 0x2E; 0x30; 0x2E; 0x30]%N.

(** Whether a computation raised a ValueError. *)
Definition is_ValueError_raised {A} (r : result A) : bool :=
  match r with
  | Ok _ => false
  | Raise e => is_ValueError e
  end.

(** A repository whose HEAD commit changed README.md and VERSION, the
    latter now holding "1.2.3". *)
Definition release_commit : env :=
  repository
    [ (diff_command (lit "HEAD"),
       Completed 0 (lit "README.md" ++ [0x0A%N] ++ lit "VERSION" ++ [0x0A%N]));
      (show_command (lit "HEAD"), Completed 0 (lit "1.2.3" ++ [0x0A%N])) ].

(** A repository with the local tag v1.0.0 and no remote: the local
    listing prints the tag or nothing, and asking the remote fails. *)
Definition tagged_locally : env :=
  repository
    [ (local_tag_query (lit "1.0.0"), Completed 0 (lit "v1.0.0" ++ [0x0A%N]));
      (local_tag_query (lit "1.0.1"), Completed 0 (lit "")) ].

(** What a listing of paths looks like on standard output: one path per
    line.  [joined] is the same without the final newline. *)
Definition unlines (names : list str) : str :=
  List.concat (map (fun n => n ++ [0x0A%N]) names).

Fixpoint joined (names : list str) : str :=
  match names with
  | [] => []
  | [n] => n
  | n :: rest => n ++ 0x0A%N :: joined rest
  end.

(** A path that a line-based listing shows as it is: not empty, on one
    line, with white space neither first nor last. *)
Definition plain_path (n : str) : bool :=
  truthy n && forallb (fun c => negb (c =? 0x0A)%N) n
  && trimmed Py_UNICODE_ISSPACE n.

(** The truth value of an optional string: nothing and the empty string
    are false. *)
Definition some_truthy (v : option str) : bool :=
  match v with
  | Some s => truthy s
  | None => false
  end.

(** Three-way comparison of two triples: the first component that differs
    decides, and equal triples give 0. *)
Definition three_way (x y : Z * Z * Z) : Z :=
  let '(a, b, c) := x in
  let '(a', b', c') := y in
  match (a ?= a')%Z with
  | Lt => (-1)%Z
  | Gt => 1%Z
  | Eq =>
      match (b ?= b')%Z with
      | Lt => (-1)%Z
      | Gt => 1%Z
      | Eq =>
          match (c ?= c')%Z with
          | Lt => (-1)%Z
          | Gt => 1%Z
          | Eq => 0%Z
          end
      end
  end.

(** What one of the two version readers handed out: the file reader on a
    path, or the commit detector on a commit. *)
Definition handed_out (v : str) : Prop :=
  exists arg rt w w',
    read_version_from_file arg rt w = (Ok (Some v), w') \/
    get_git_commit_version_change arg rt w = (Ok (Some v), w').

(** An environment with the file VERSION holding "1.0.0" and a newline,
    and a repository whose HEAD commit set VERSION to "1.2.3". *)
Definition release_checkout : env :=
  {| read_file := fun p =>
       if str_eqb p (lit "VERSION")
       then FileText (lit "1.0.0" ++ [0x0A%N]) else FileMissing;
     run_process :=
       answer_of
         [ (diff_command (lit "HEAD"),
            Completed 0 (lit "VERSION" ++ [0x0A%N]));
           (show_command (lit "HEAD"), Completed 0 (lit "1.2.3" ++ [0x0A%N])) ];
     exn_text := fun _ => lit "" |}.

(** ** The tag stores behind the two queries *)

(** The characters that the tool's pattern matcher reads as themselves:
    not the star, the question mark, the opening bracket or the
    backslash, and none of the code points that a command line cannot
    carry (NUL and the surrogates). *)
Definition literal_char (c : char) : bool :=
  negb ((c =? 0x2A) || (c =? 0x3F) || (c =? 0x5B) || (c =? 0x5C))%N
  && negb (c =? 0)%N && negb ((0xD800 <=? c) && (c <=? 0xDFFF))%N.

Definition literal_pattern (p : str) : bool := forallb literal_char p.

Fixpoint starts_with (p s : str) : bool :=
  match p, s with
  | [], _ => true
  | a :: p', b :: s' => (a =? b)%N && starts_with p' s'
  | _ :: _, [] => false
  end.

Definition ends_with (p s : str) : bool := starts_with (rev p) (rev s).

(** The tags of a checkout: the names in its own store, and the names
    that the remote "origin" advertises under refs/tags/, if there is
    such a remote and it answers.  [object_of] names the object that a
    tag of the remote points at.  [otherwise] is the answer of the tool
    to what this model leaves open: a command line that is not one of
    the two tag queries, and a query whose pattern is not literal. *)
Record tag_stores : Type := {
  local_tags : list str;
  origin_tags : option (list str);
  object_of : str -> str;
  otherwise : list str -> proc_outcome
}.

Definition advertised (r : tag_stores) : list str :=
  match origin_tags r with
  | Some tags => tags
  | None => []
  end.

(** The tag is in one of the two stores under its own name. *)
Definition tag_present (r : tag_stores) (tag : str) : Prop :=
  In tag (local_tags r) \/ In tag (advertised r).

(** [git tag -l pattern] prints the local tags that match the pattern,
    one per line, and exits with status 0: for a literal pattern, the tag
    of that very name if there is one. *)
Definition tag_list (r : tag_stores) (pattern : str) : proc_outcome :=
  Completed 0 (unlines (filter (str_eqb pattern) (local_tags r))).

(** [git ls-remote --tags origin pattern] matches the pattern against
    the tail of each reference that the remote advertises: a literal
    pattern matches the reference that ends with a slash followed by the
    pattern.  It prints the object and the name of each match, separated
    by a tab, and exits with status 0; without a remote it prints nothing
    and exits with status 128. *)
Definition tail_match (pattern ref : str) : bool :=
  ends_with (lit "/" ++ pattern) (lit "/" ++ ref).

Definition ls_remote_tags (r : tag_stores) (pattern : str) : proc_outcome :=
  match origin_tags r with
  | None => Completed 128 []
  | Some tags =>
      Completed 0
        (unlines
           (map (fun t => object_of r t ++ 0x09%N :: lit "refs/tags/" ++ t)
              (filter (fun t => tail_match pattern (lit "refs/tags/" ++ t))
                 tags)))
  end.

Definition cmd_eqb (a b : list str) : bool :=
  if list_eq_dec (list_eq_dec N.eq_dec) a b then true else false.

Definition git (r : tag_stores) (cmd : list str) : proc_outcome :=
  match cmd with
  | [_; _; _; p] =>
      if literal_pattern p && cmd_eqb cmd [lit "git"; lit "tag"; lit "-l"; p]
      then tag_list r p
      else otherwise r cmd
  | [_; _; _; _; p] =>
      if literal_pattern p
         && cmd_eqb cmd
              [lit "git"; lit "ls-remote"; lit "--tags"; lit "origin"; p]
      then ls_remote_tags r p
      else otherwise r cmd
  | _ => otherwise r cmd
  end.

(** An environment without files, whose version-control tool answers
    from the tag stores. *)
Definition git_world (r : tag_stores) : env :=
  {| read_file := fun _ => FileMissing;
     run_process := git r;
     exn_text := fun _ => lit "" |}.

(** A checkout without tags of its own, whose remote holds the one tag
    rel/v2.0.0. *)
Definition namesake_at_origin : tag_stores :=
  {| local_tags := [];
     origin_tags := Some [lit "rel/v2.0.0"];
     object_of := fun _ => lit "5f2c1e0a9b8d7c6f4e3d2c1b0a99887766554433";
     otherwise := fun _ => Completed 128 [] |}.


(** A repository whose HEAD commit changed one file, named " VERSION"
    with a space before the V, and left the file VERSION, which holds
    "1.0.0", as it was. *)
Definition spaced_name_commit : env :=
  repository
    [ (diff_command (lit "HEAD"), Completed 0 (unlines [lit " VERSION"]));
      (show_command (lit "HEAD"), Completed 0 (lit "1.0.0" ++ [0x0A%N])) ].


(** The offsets of the ten digits of a script from its zero. *)
Definition ten : list N := [0; 1; 2; 3; 4; 5; 6; 7; 8; 9]%N.

(** ** Stripping *)

Section Strip.

Variable space : char -> bool.

Lemma lstrip_with_split (s : str) :
  exists l, s = l ++ lstrip_with space s /\ forallb space l = true.
Proof.
  induction s as [|c s IH]; simpl.
  - exists []. auto.
  - destruct (space c) eqn:E.
    + destruct IH as [l [H1 H2]]. exists (c :: l). simpl.
      rewrite E, H2. split; [now f_equal | reflexivity].
    + exists []. auto.
Qed.

Lemma lstrip_with_head (s : str) c t :
  lstrip_with space s = c :: t -> space c = false.
Proof.
  induction s as [|d s IH]; simpl; [discriminate|].
  destruct (space d) eqn:E; [exact IH|].
  intros H. injection H as -> _. exact E.
Qed.

Lemma lstrip_with_app (l t : str) :
  forallb space l = true ->
  lstrip_with space (l ++ t) = lstrip_with space t.
Proof.
  induction l as [|c l IH]; simpl; [reflexivity|].
  intros H. apply andb_prop in H. destruct H as [H1 H2].
  now rewrite H1, IH.
Qed.

Lemma lstrip_with_fixed c (t : str) :
  space c = false -> lstrip_with space (c :: t) = c :: t.
Proof. intros H. simpl. now rewrite H. Qed.

Lemma trimmed_snoc (t : str) c :
  trimmed space (t ++ [c]) = true -> space c = false.
Proof.
  unfold trimmed. destruct (t ++ [c]) as [|d u] eqn:E.
  - destruct t; discriminate.
  - rewrite <- E, last_last. intros H.
    apply andb_prop in H. destruct H as [_ H].
    now apply negb_true_iff in H.
Qed.

Lemma trimmed_cons c (t : str) :
  trimmed space (c :: t) = true -> space c = false.
Proof.
  unfold trimmed. intros H. apply andb_prop in H. destruct H as [H _].
  now apply negb_true_iff in H.
Qed.

Lemma trimmed_ends c d (t : str) :
  space c = false -> space d = false -> trimmed space (c :: t ++ [d]) = true.
Proof.
  intros Hc Hd. unfold trimmed.
  change (c :: t ++ [d]) with ((c :: t) ++ [d]).
  now rewrite last_last, Hc, Hd.
Qed.

Lemma lstrip_with_all (r : str) :
  forallb space r = true -> lstrip_with space r = [].
Proof.
  induction r as [|d r IH]; simpl; [reflexivity|].
  intros H. apply andb_prop in H. destruct H as [H1 H2].
  rewrite H1. auto.
Qed.

Lemma forallb_rev (r : str) :
  forallb space r = true -> forallb space (rev r) = true.
Proof.
  rewrite !forallb_forall. intros H x Hx. apply H. now apply in_rev.
Qed.

(** Stripping a trimmed string between two runs of white space gives the
    string back. *)
Lemma strip_with_unique (l t r : str) :
  forallb space l = true -> forallb space r = true ->
  trimmed space t = true ->
  strip_with space (l ++ t ++ r) = t.
Proof.
  intros Hl Hr Ht. unfold strip_with, rstrip_with.
  rewrite lstrip_with_app by assumption.
  destruct t as [|c t].
  - simpl. now rewrite (lstrip_with_all r Hr).
  - pose proof (trimmed_cons _ _ Ht) as Hc.
    change ((c :: t) ++ r) with (c :: (t ++ r)).
    rewrite lstrip_with_fixed by assumption.
    destruct (exists_last (l := c :: t) ltac:(discriminate)) as [t' [d E]].
    rewrite E in Ht. pose proof (trimmed_snoc _ _ Ht) as Hd.
    change (c :: t ++ r) with ((c :: t) ++ r).
    rewrite E, rev_app_distr.
    rewrite lstrip_with_app by now apply forallb_rev.
    rewrite rev_app_distr. simpl.
    rewrite Hd. simpl. now rewrite rev_involutive.
Qed.

(** Every string is its stripped form between two runs of white space,
    and the stripped form is trimmed. *)
Lemma strip_with_split (s : str) :
  exists l r,
    s = l ++ strip_with space s ++ r /\
    forallb space l = true /\ forallb space r = true /\
    trimmed space (strip_with space s) = true.
Proof.
  unfold strip_with, rstrip_with.
  destruct (lstrip_with_split s) as [l [Hs Hl]].
  destruct (lstrip_with_split (rev (lstrip_with space s))) as [r' [Hr Hr']].
  set (t1 := lstrip_with space s) in *.
  set (u := lstrip_with space (rev t1)) in *.
  assert (Ht1 : t1 = rev u ++ rev r').
  { rewrite <- rev_app_distr, <- Hr. symmetry. apply rev_involutive. }
  exists l, (rev r'). repeat split.
  - now rewrite <- Ht1.
  - exact Hl.
  - now apply forallb_rev.
  - destruct u as [|d u'] eqn:Eu; [reflexivity|].
    assert (Hd : space d = false) by (eapply lstrip_with_head; exact Eu).
    simpl rev in *. destruct (rev u') as [|c v] eqn:Ev.
    + simpl. now rewrite Hd.
    + assert (Hc : space c = false).
      { subst t1. eapply lstrip_with_head. simpl in Ht1. exact Ht1. }
      now apply trimmed_ends.
Qed.

Lemma strip_with_trimmed (s : str) : trimmed space (strip_with space s) = true.
Proof. destruct (strip_with_split s) as [l [r [_ [_ [_ H]]]]]. exact H. Qed.

Lemma strip_with_fixed (t : str) :
  trimmed space t = true -> strip_with space t = t.
Proof.
  intros H. rewrite <- (strip_with_unique [] t [] eq_refl eq_refl H) at 2.
  simpl. now rewrite app_nil_r.
Qed.

Lemma strip_with_idempotent (s : str) :
  strip_with space (strip_with space s) = strip_with space s.
Proof. apply strip_with_fixed, strip_with_trimmed. Qed.

End Strip.

(** ** Characters *)

Lemma decimal_in_some (zs : list N) (c : char) (d : N) :
  decimal_in zs c = Some d ->
  exists z, In z zs /\ (z <= c)%N /\ (c <= z + 9)%N /\ d = (c - z)%N.
Proof.
  induction zs as [|z zs IH]; simpl; [discriminate|].
  destruct ((z <=? c)%N && (c <=? z + 9)%N) eqn:E.
  - intros H. injection H as <-. apply andb_prop in E. destruct E as [E1 E2].
    apply N.leb_le in E1, E2. exists z. auto.
  - intros H. destruct (IH H) as [z' [H1 H2]]. exists z'. auto.
Qed.

Lemma in_ten (i : N) : (i <= 9)%N -> In i ten.
Proof.
  intros H. unfold ten. simpl.
  destruct (N.eq_dec i 0); [auto|]. destruct (N.eq_dec i 1); [auto|].
  destruct (N.eq_dec i 2); [auto 4|]. destruct (N.eq_dec i 3); [auto 5|].
  destruct (N.eq_dec i 4); [auto 6|]. destruct (N.eq_dec i 5); [auto 7|].
  destruct (N.eq_dec i 6); [auto 8|]. destruct (N.eq_dec i 7); [auto 9|].
  destruct (N.eq_dec i 8); [auto 10|]. destruct (N.eq_dec i 9); [auto 11|].
  lia.
Qed.

(** A property of every decimal digit follows from checking the table. *)
Lemma decimal_table_ind (P : char -> N -> bool) :
  forallb (fun z => forallb (fun i => P (z + i)%N i) ten) decimal_zeros = true ->
  forall c d, Py_UNICODE_TODECIMAL c = Some d -> P c d = true.
Proof.
  intros H c d Hc. apply decimal_in_some in Hc.
  destruct Hc as [z [Hz [H1 [H2 ->]]]].
  rewrite forallb_forall in H. specialize (H z Hz).
  rewrite forallb_forall in H. specialize (H (c - z)%N).
  replace (z + (c - z))%N with c in H by lia.
  apply H. apply in_ten. lia.
Qed.

Lemma isdecimal_some (c : char) :
  Py_UNICODE_ISDECIMAL c = true -> exists d, Py_UNICODE_TODECIMAL c = Some d.
Proof.
  unfold Py_UNICODE_ISDECIMAL. destruct (Py_UNICODE_TODECIMAL c) as [d|];
    [eauto | discriminate].
Qed.

Lemma decimal_not_space (c : char) :
  Py_UNICODE_ISDECIMAL c = true -> Py_UNICODE_ISSPACE c = false.
Proof.
  intros H. destruct (isdecimal_some c H) as [d Hd].
  apply negb_true_iff.
  apply (decimal_table_ind (fun c _ => negb (Py_UNICODE_ISSPACE c)) eq_refl c d Hd).
Qed.

Lemma decimal_not_dot (c : char) :
  Py_UNICODE_ISDECIMAL c = true -> (c =? 0x2E)%N = false.
Proof.
  intros H. destruct (isdecimal_some c H) as [d Hd].
  apply negb_true_iff.
  apply (decimal_table_ind (fun c _ => negb (c =? 0x2E)%N) eq_refl c d Hd).
Qed.

(** [int] turns every decimal digit into the ASCII digit of its value. *)
Lemma decimal_to_ascii (c : char) (d : N) :
  Py_UNICODE_TODECIMAL c = Some d -> to_ascii c = (0x30 + d)%N /\ (d <= 9)%N.
Proof.
  intros Hd.
  pose proof (decimal_table_ind
                (fun c d => (to_ascii c =? 0x30 + d)%N && (d <=? 9)%N)
                eq_refl c d Hd) as H.
  apply andb_prop in H. destruct H as [H1 H2].
  apply N.eqb_eq in H1. apply N.leb_le in H2. auto.
Qed.

Lemma ascii_decimal (c : char) :
  Py_UNICODE_ISDECIMAL c = true -> (c <? 128)%N = true -> spec_digit c = true.
Proof.
  intros H Hc. destruct (isdecimal_some c H) as [d Hd].
  pose proof (decimal_table_ind
                (fun c _ => negb (c <? 128)%N || spec_digit c) eq_refl c d Hd) as H'.
  simpl in H'. rewrite Hc in H'. exact H'.
Qed.

Lemma spec_digit_decimal (c : char) :
  spec_digit c = true -> Py_UNICODE_TODECIMAL c = Some (c - 0x30)%N.
Proof.
  unfold spec_digit, Py_UNICODE_TODECIMAL. intros H.
  unfold decimal_zeros, decimal_in.
  apply andb_prop in H. destruct H as [H1 H2].
  rewrite H1. change (0x30 + 9)%N with 0x39%N. now rewrite H2.
Qed.

Ltac bool_to_prop :=
  repeat match goal with
         | H : _ && _ = true |- _ => apply andb_prop in H; destruct H
         | H : _ || _ = true |- _ => apply orb_prop in H; destruct H
         | H : _ || _ = false |- _ => apply orb_false_elim in H; destruct H
         | H : negb _ = true |- _ => apply negb_true_iff in H
         | H : (_ <=? _)%N = true |- _ => apply N.leb_le in H
         | H : (_ <=? _)%N = false |- _ => apply N.leb_gt in H
         | H : (_ <? _)%N = true |- _ => apply N.ltb_lt in H
         | H : (_ <? _)%N = false |- _ => apply N.ltb_ge in H
         | H : (_ =? _)%N = true |- _ => apply N.eqb_eq in H
         | H : (_ =? _)%N = false |- _ => apply N.eqb_neq in H
         end.

Lemma space_not_dot (c : char) :
  Py_UNICODE_ISSPACE c = true -> (c =? 0x2E)%N = false.
Proof.
  unfold Py_UNICODE_ISSPACE. intros H. apply N.eqb_neq.
  bool_to_prop; lia.
Qed.

(** Apart from the four separators, [int] skips what [strip] removes. *)
Lemma space_to_ascii (c : char) :
  Py_UNICODE_ISSPACE c = true -> separator c = false ->
  Py_ISSPACE (to_ascii c) = true.
Proof.
  intros H Hs. unfold to_ascii. rewrite H.
  destruct (c <? 128)%N eqn:E; [|reflexivity].
  unfold Py_UNICODE_ISSPACE in H. unfold separator in Hs. unfold Py_ISSPACE.
  apply andb_false_iff in Hs.
  rewrite orb_true_iff, andb_true_iff, N.eqb_eq, !N.leb_le.
  destruct Hs; bool_to_prop; lia.
Qed.

Lemma ascii_digit_not_space (c : char) :
  is_ascii_digit c = true -> Py_ISSPACE c = false.
Proof.
  unfold is_ascii_digit, Py_ISSPACE. intros H.
  apply orb_false_iff. rewrite andb_false_iff, N.eqb_neq, !N.leb_gt.
  bool_to_prop. split; [right|]; lia.
Qed.

(** ** The matcher on the pattern *)

Lemma one_char_true (p : char -> bool) pos (s : str) (k : cont) :
  one_char p pos s k = true <->
  exists c s', s = c :: s' /\ p c = true /\ k (S pos) s' = true.
Proof.
  unfold one_char. destruct s as [|c s'].
  - split; [discriminate | intros [c [s' [H _]]]; discriminate].
  - rewrite andb_true_iff. split.
    + intros [H1 H2]. eauto.
    + intros [c' [s'' [H [H1 H2]]]]. injection H as <- <-. auto.
Qed.

(** A star over a one-character class takes any prefix of members. *)
Lemma star_loop_class (p : char -> bool) (k : cont) :
  forall fuel pos (s : str),
    (List.length s <= fuel)%nat ->
    star_loop (one_char p) fuel pos s k = true <->
    exists ds rest,
      s = ds ++ rest /\ forallb p ds = true /\
      k (pos + List.length ds)%nat rest = true.
Proof.
  induction fuel as [|fuel IH]; intros pos s Hlen.
  - destruct s; [|simpl in Hlen; lia]. simpl. split.
    + intros H. exists [], []. simpl. now rewrite Nat.add_0_r.
    + intros [ds [rest [H1 [_ H2]]]].
      symmetry in H1. apply app_eq_nil in H1. destruct H1 as [-> ->].
      simpl in H2. now rewrite Nat.add_0_r in H2.
  - simpl. rewrite orb_true_iff, one_char_true. split.
    + intros [[c [s' [-> [Hc H]]]] | H].
      * apply andb_prop in H. destruct H as [_ H].
        apply IH in H; [|simpl in Hlen; lia].
        destruct H as [ds [rest [-> [Hds Hk]]]].
        exists (c :: ds), rest. simpl. rewrite Hc, Hds.
        rewrite Nat.add_succ_r. auto.
      * exists [], s. simpl. now rewrite Nat.add_0_r.
    + intros [[|c ds] [rest [-> [Hds Hk]]]].
      * right. simpl in Hk. now rewrite Nat.add_0_r in Hk.
      * left. simpl in Hds. apply andb_prop in Hds. destruct Hds as [Hc Hds].
        exists c, (ds ++ rest). repeat split; [exact Hc|].
        rewrite andb_true_iff. split; [apply Nat.ltb_lt; lia|].
        apply IH; [simpl in Hlen; lia|].
        exists ds, rest. simpl in Hk. rewrite Nat.add_succ_r in Hk. auto.
Qed.

Lemma matches_number pos (s : str) (k : cont) :
  matches number pos s k = true <->
  exists g rest,
    s = g ++ rest /\ number_b g = true /\
    k (pos + List.length g)%nat rest = true.
Proof.
  change (matches number pos s k) with
    (one_char (N.eqb 0x30) pos s k
     || one_char (fun c => (0x31 <=? c)%N && (c <=? 0x39)%N) pos s
          (fun pos' s' =>
             star_loop (one_char Py_UNICODE_ISDECIMAL) (List.length s') pos' s' k)).
  rewrite orb_true_iff, !one_char_true. split.
  - intros [[c [s' [-> [Hc Hk]]]] | [c [s' [-> [Hc Hk]]]]].
    + apply N.eqb_eq in Hc. subst c. exists [0x30%N], s'.
      rewrite Nat.add_1_r. auto.
    + apply star_loop_class in Hk; [|lia].
      destruct Hk as [ds [rest [-> [Hds Hk]]]].
      exists (c :: ds), rest. unfold number_b.
      rewrite Hc, Hds, orb_true_r.
      cbn [List.length]. rewrite Nat.add_succ_r. auto.
  - intros [[|c ds] [rest [-> [Hg Hk]]]]; [discriminate|].
    unfold number_b in Hg. apply orb_prop in Hg. destruct Hg as [Hg | Hg].
    + left. apply andb_prop in Hg. destruct Hg as [Hc Hds].
      destruct ds; [|discriminate]. apply N.eqb_eq in Hc. subst c.
      exists 0x30%N, rest. cbn [List.length] in Hk.
      rewrite Nat.add_1_r in Hk. auto.
    + right. apply andb_prop in Hg. destruct Hg as [Hc Hds].
      exists c, (ds ++ rest). repeat split; [exact Hc|].
      apply star_loop_class; [lia|]. exists ds, rest.
      cbn [List.length] in Hk. rewrite Nat.add_succ_r in Hk. auto.
Qed.

Lemma matches_dot pos (s : str) (k : cont) :
  matches (Chr (chr ".")) pos s k = true <->
  exists s', s = 0x2E%N :: s' /\ k (S pos) s' = true.
Proof.
  change (matches (Chr (chr ".")) pos s k) with (one_char (N.eqb 0x2E) pos s k).
  rewrite one_char_true. split.
  - intros [c [s' [-> [Hc Hk]]]]. apply N.eqb_eq in Hc. subst c. eauto.
  - intros [s' [-> Hk]]. exists 0x2E%N, s'. auto.
Qed.

Lemma matches_cat r1 r2 pos (s : str) (k : cont) :
  matches (Cat r1 r2) pos s k
  = matches r1 pos s (fun pos' s' => matches r2 pos' s' k).
Proof. reflexivity. Qed.

Lemma matches_eol pos (s : str) (k : cont) :
  matches Eol pos s k = true <->
  (s = [] \/ s = [0x0A%N]) /\ k pos s = true.
Proof.
  destruct s as [|x [|y s]]; cbn [matches].
  - intuition.
  - rewrite andb_true_iff, N.eqb_eq. split.
    + intros [-> H]. auto.
    + intros [[H|H] Hk]; [discriminate|]. injection H as ->. auto.
  - split; [discriminate|]. intros [[H|H] _]; discriminate.
Qed.

(** What [re.match] accepts: three numbers between dots, then the end of
    the string or one final newline. *)
Lemma re_match_pattern (t : str) :
  re_match pattern t = true <->
  exists a b c tail,
    t = dotted a b (c ++ tail) /\
    number_b a = true /\ number_b b = true /\ number_b c = true /\
    (tail = [] \/ tail = [0x0A%N]).
Proof.
  unfold re_match, pattern, dotted. rewrite matches_cat.
  change (matches Bol 0 t ?k) with (k 0%nat t). cbv beta.
  split.
  - intros H. rewrite matches_cat in H.
    apply matches_number in H. destruct H as [a [r1 [-> [Ha H]]]].
    rewrite matches_cat in H.
    apply matches_dot in H. destruct H as [r2 [-> H]].
    rewrite matches_cat in H.
    apply matches_number in H. destruct H as [b [r3 [-> [Hb H]]]].
    rewrite matches_cat in H.
    apply matches_dot in H. destruct H as [r4 [-> H]].
    rewrite matches_cat in H.
    apply matches_number in H. destruct H as [c [tail [-> [Hc H]]]].
    apply matches_eol in H. destruct H as [H _].
    exists a, b, c, tail. auto.
  - intros [a [b [c [tail [-> [Ha [Hb [Hc Htail]]]]]]]].
    rewrite matches_cat.
    apply matches_number. exists a, (0x2E%N :: b ++ 0x2E%N :: c ++ tail).
    repeat split; [exact Ha|]. rewrite matches_cat.
    apply matches_dot. eexists. split; [reflexivity|]. rewrite matches_cat.
    apply matches_number. exists b, (0x2E%N :: c ++ tail).
    repeat split; [exact Hb|]. rewrite matches_cat.
    apply matches_dot. eexists. split; [reflexivity|]. rewrite matches_cat.
    apply matches_number. exists c, tail. repeat split; [exact Hc|].
    apply matches_eol. auto.
Qed.

(** ** The format validator *)

Lemma dotted_snoc (a b c tail : str) :
  dotted a b (c ++ tail) = dotted a b c ++ tail.
Proof.
  unfold dotted. rewrite <- app_assoc. simpl. rewrite <- app_assoc. reflexivity.
Qed.

(** The validator accepts exactly the strings whose stripped form is three
    numbers of the pattern between dots; the newline that [$] tolerates
    never survives the stripping. *)
Theorem validate_shape (s : str) :
  validate_semantic_version s = true <-> version_shape (strip s).
Proof.
  unfold validate_semantic_version. rewrite re_match_pattern. split.
  - intros [a [b [c [tail [Hs [Ha [Hb [Hc [-> | ->]]]]]]]]].
    + rewrite app_nil_r in Hs. exists a, b, c. repeat split; assumption.
    + exfalso. rewrite dotted_snoc in Hs.
      pose proof (strip_with_trimmed Py_UNICODE_ISSPACE s) as Ht.
      fold (strip s) in Ht. rewrite Hs in Ht.
      apply trimmed_snoc in Ht. discriminate.
  - intros [a [b [c [Hs [Ha [Hb Hc]]]]]].
    exists a, b, c, []. rewrite app_nil_r. repeat split; auto.
Qed.

Lemma spec_group_digits (g : str) :
  spec_group g = true -> forallb spec_digit g = true.
Proof.
  destruct g as [|c ds]; [discriminate|]. unfold spec_group.
  intros H. apply orb_prop in H. destruct H as [H | H].
  - apply andb_prop in H. destruct H as [Hc Hds].
    destruct ds; [|discriminate]. apply N.eqb_eq in Hc. now subst c.
  - apply andb_prop in H. tauto.
Qed.

Lemma spec_group_number (g : str) :
  spec_group g = true -> number_b g = true.
Proof.
  intros H. pose proof (spec_group_digits g H) as Hd.
  destruct g as [|c ds]; [discriminate|].
  unfold spec_group in H. unfold number_b.
  apply orb_prop in H. destruct H as [H | H]; [now rewrite H|].
  apply andb_prop in H. destruct H as [Hc _].
  simpl in Hd. apply andb_prop in Hd. destruct Hd as [Hd Hds].
  assert (E : forallb Py_UNICODE_ISDECIMAL ds = true).
  { rewrite forallb_forall in *. intros x Hx.
    unfold Py_UNICODE_ISDECIMAL. now rewrite (spec_digit_decimal x (Hds x Hx)). }
  rewrite E. unfold spec_digit in Hd.
  assert (E' : ((0x31 <=? c)%N && (c <=? 0x39)%N) = true).
  { rewrite andb_true_iff, !N.leb_le. bool_to_prop. lia. }
  rewrite E'. apply orb_true_r.
Qed.

Lemma number_ascii_spec (g : str) :
  number_b g = true -> forallb (fun c => (c <? 128)%N) g = true ->
  spec_group g = true.
Proof.
  destruct g as [|c ds]; [discriminate|]. unfold number_b, spec_group.
  intros H Ha. apply orb_prop in H. destruct H as [H | H]; [now rewrite H|].
  apply andb_prop in H. destruct H as [Hc Hds].
  simpl in Ha. apply andb_prop in Ha. destruct Ha as [_ Ha].
  assert (E : forallb spec_digit (c :: ds) = true).
  { simpl. unfold spec_digit at 1.
    rewrite andb_true_iff. split.
    - rewrite andb_true_iff, !N.leb_le. bool_to_prop. lia.
    - rewrite forallb_forall in *. intros x Hx.
      apply ascii_decimal; auto. }
  rewrite E.
  assert (E' : N.eqb c 0x30 = false) by (apply N.eqb_neq; bool_to_prop; lia).
  rewrite E'. apply orb_true_r.
Qed.

Lemma forallb_dotted (p : char -> bool) (a b c : str) :
  forallb p (dotted a b c) = true ->
  forallb p a = true /\ forallb p b = true /\ forallb p c = true.
Proof.
  unfold dotted. rewrite forallb_app. simpl. rewrite forallb_app. simpl.
  intros H. bool_to_prop. auto.
Qed.

Lemma forallb_strip (p : char -> bool) (s : str) :
  forallb p s = true -> forallb p (strip s) = true.
Proof.
  destruct (strip_with_split Py_UNICODE_ISSPACE s) as [l [r [Hs _]]].
  fold (strip s) in Hs. intros H. rewrite Hs in H.
  rewrite !forallb_app in H. bool_to_prop. assumption.
Qed.

(** Every version in the specification's format is accepted. *)
Theorem validate_accepts_spec_format (s : str) :
  spec_version_format (strip s) -> validate_semantic_version s = true.
Proof.
  intros [a [b [c [Hs [Ha [Hb Hc]]]]]]. apply validate_shape.
  exists a, b, c. repeat split; auto using spec_group_number.
Qed.

(** X2: on ASCII input the validator accepts exactly the strings whose
    stripped form is three dot-separated groups, each the single digit 0
    or a run of the digits 0 to 9 that does not start with 0. *)
Theorem validate_ascii (s : str) :
  forallb (fun c => (c <? 128)%N) s = true ->
  validate_semantic_version s = true <-> spec_version_format (strip s).
Proof.
  intros Hascii. split; [|apply validate_accepts_spec_format].
  intros H. apply validate_shape in H.
  destruct H as [a [b [c [Hs [Ha [Hb Hc]]]]]].
  apply forallb_strip in Hascii. rewrite Hs in Hascii.
  apply forallb_dotted in Hascii. destruct Hascii as [Ha' [Hb' Hc']].
  exists a, b, c. repeat split; auto using number_ascii_spec.
Qed.

Lemma spec_format_chars (t : str) :
  spec_version_format t ->
  forallb (fun c => spec_digit c || (c =? 0x2E)%N) t = true.
Proof.
  intros [a [b [c [-> [Ha [Hb Hc]]]]]].
  apply spec_group_digits in Ha, Hb, Hc.
  unfold dotted. rewrite forallb_app. simpl. rewrite forallb_app. simpl.
  rewrite !andb_true_iff.
  assert (W : forall g, forallb spec_digit g = true ->
                        forallb (fun c => spec_digit c || (c =? 0x2E)%N) g = true).
  { intros g Hg. rewrite forallb_forall in *. intros x Hx.
    now rewrite (Hg x Hx). }
  auto.
Qed.

(** C2: the validator accepts "1" U+0663 ".0.0", whose first group holds a
    character that is not one of the digits 0 to 9: it is not in the
    format the specification words, yet the validator returns true. *)
Theorem validate_accepts_non_ascii_digit :
  validate_semantic_version arabic_indic_13_0_0 = true /\
  strip arabic_indic_13_0_0 = arabic_indic_13_0_0 /\
  ~ spec_version_format (strip arabic_indic_13_0_0).
Proof.
  split; [reflexivity|]. split; [reflexivity|].
  intros H. apply spec_format_chars in H. discriminate.
Qed.

(** ** Splitting and reading integers *)

Lemma split_no_sep (sep : char) (a : str) :
  forallb (fun c => negb (c =? sep)%N) a = true -> split sep a = [a].
Proof.
  induction a as [|c a IH]; simpl; [reflexivity|].
  intros H. apply andb_prop in H. destruct H as [Hc Ha].
  apply negb_true_iff in Hc. rewrite Hc, (IH Ha). reflexivity.
Qed.

Lemma split_app (sep : char) (a rest : str) :
  forallb (fun c => negb (c =? sep)%N) a = true ->
  split sep (a ++ sep :: rest) = a :: split sep rest.
Proof.
  induction a as [|c a IH]; simpl.
  - now rewrite N.eqb_refl.
  - intros H. apply andb_prop in H. destruct H as [Hc Ha].
    apply negb_true_iff in Hc. rewrite Hc, (IH Ha). reflexivity.
Qed.

Lemma number_decimal (g : str) :
  number_b g = true -> forallb Py_UNICODE_ISDECIMAL g = true /\ g <> [].
Proof.
  destruct g as [|c ds]; [discriminate|]. unfold number_b. intros H.
  split; [|discriminate]. simpl.
  assert (Hc : spec_digit c = true).
  { unfold spec_digit. rewrite andb_true_iff, !N.leb_le.
    apply orb_prop in H. destruct H; bool_to_prop; lia. }
  unfold Py_UNICODE_ISDECIMAL at 1. rewrite (spec_digit_decimal c Hc).
  apply orb_prop in H. destruct H as [H | H]; bool_to_prop.
  - destruct ds; [reflexivity | discriminate].
  - assumption.
Qed.

Lemma long_digits_decimal (g : str) :
  forall (after_digit : bool) (acc : Z),
    forallb Py_UNICODE_ISDECIMAL g = true ->
    g <> [] \/ after_digit = true ->
    long_digits (map to_ascii g) after_digit acc
    = Some (fold_left (fun acc c => (10 * acc + digit_value c)%Z) g acc).
Proof.
  induction g as [|c g IH]; intros b acc Hg Hne.
  - destruct Hne as [Hne | ->]; [congruence | reflexivity].
  - simpl in Hg. apply andb_prop in Hg. destruct Hg as [Hc Hg].
    destruct (isdecimal_some c Hc) as [d Hd].
    destruct (decimal_to_ascii c d Hd) as [E Hd9].
    cbn [map long_digits fold_left].
    assert (Hdig : is_ascii_digit (to_ascii c) = true).
    { unfold is_ascii_digit. rewrite E, andb_true_iff, !N.leb_le. lia. }
    rewrite Hdig, IH by auto.
    unfold digit_value. rewrite Hd, E.
    replace (0x30 + d - 0x30)%N with d by lia. reflexivity.
Qed.

Lemma forallb_map_to_ascii_space (l : str) :
  forallb Py_UNICODE_ISSPACE l = true -> separator_free l = true ->
  forallb Py_ISSPACE (map to_ascii l) = true.
Proof.
  unfold separator_free. induction l as [|c l IH]; simpl; [reflexivity|].
  intros H1 H2. bool_to_prop.
  rewrite space_to_ascii by assumption. auto.
Qed.

Lemma to_ascii_decimal_digit (c : char) :
  Py_UNICODE_ISDECIMAL c = true -> is_ascii_digit (to_ascii c) = true.
Proof.
  intros Hc. destruct (isdecimal_some c Hc) as [d Hd].
  destruct (decimal_to_ascii c d Hd) as [E Hd9].
  unfold is_ascii_digit. rewrite E, andb_true_iff, !N.leb_le. lia.
Qed.

Lemma trimmed_digits (g : str) :
  forallb Py_UNICODE_ISDECIMAL g = true ->
  trimmed Py_ISSPACE (map to_ascii g) = true.
Proof.
  intros Hg. destruct g as [|c g]; [reflexivity|].
  destruct (exists_last (l := c :: g) ltac:(discriminate)) as [g' [d E]].
  assert (Hd : Py_UNICODE_ISDECIMAL d = true).
  { rewrite forallb_forall in Hg. apply Hg. rewrite E.
    apply in_or_app. right. now left. }
  assert (Hc : Py_UNICODE_ISDECIMAL c = true).
  { simpl in Hg. now apply andb_prop in Hg. }
  unfold trimmed. cbn [map].
  change (to_ascii c :: map to_ascii g) with (map to_ascii (c :: g)).
  rewrite E, map_app. cbn [map]. rewrite last_last.
  rewrite !ascii_digit_not_space by now apply to_ascii_decimal_digit.
  reflexivity.
Qed.

Lemma span_all (p : char -> bool) (s : str) :
  forallb p s = true -> span p s = (s, []).
Proof.
  induction s as [|c s IH]; simpl; [reflexivity|].
  intros H. apply andb_prop in H. destruct H as [Hc Hs].
  now rewrite Hc, (IH Hs).
Qed.

Lemma filter_all (p : char -> bool) (s : str) :
  forallb p s = true -> filter p s = s.
Proof.
  induction s as [|c s IH]; simpl; [reflexivity|].
  intros H. apply andb_prop in H. destruct H as [Hc Hs].
  now rewrite Hc, (IH Hs).
Qed.

Lemma forallb_to_ascii_digits (g : str) :
  forallb Py_UNICODE_ISDECIMAL g = true ->
  forallb is_ascii_digit (map to_ascii g) = true.
Proof.
  rewrite !forallb_forall. intros H x Hx.
  apply in_map_iff in Hx. destruct Hx as [c [<- Hc]].
  apply to_ascii_decimal_digit. auto.
Qed.

(** [int] reads a run of decimal digits between white space that holds no
    separator as the number the digits spell, unless the digits are more
    than the interpreter allows. *)
Lemma int_padded (l g r : str) :
  forallb Py_UNICODE_ISSPACE l = true -> separator_free l = true ->
  forallb Py_UNICODE_ISSPACE r = true -> separator_free r = true ->
  forallb Py_UNICODE_ISDECIMAL g = true -> g <> [] ->
  int (l ++ g ++ r) = read_digits g.
Proof.
  intros Hl Hl' Hr Hr' Hg Hne. unfold int.
  rewrite !map_app.
  rewrite strip_with_unique;
    auto using forallb_map_to_ascii_space, trimmed_digits.
  pose proof (forallb_to_ascii_digits g Hg) as Hd.
  destruct g as [|c g]; [congruence|].
  cbn [map] in *.
  assert (Hc : is_ascii_digit (to_ascii c) = true).
  { simpl in Hd. now apply andb_prop in Hd. }
  assert (E1 : (to_ascii c =? 0x2B)%N = false).
  { unfold is_ascii_digit in Hc. apply N.eqb_neq. bool_to_prop. lia. }
  assert (E2 : (to_ascii c =? 0x2D)%N = false).
  { unfold is_ascii_digit in Hc. apply N.eqb_neq. bool_to_prop. lia. }
  rewrite E1, E2.
  change (to_ascii c :: map to_ascii g) with (map to_ascii (c :: g)) in *.
  rewrite span_all.
  2:{ rewrite forallb_forall in *. intros x Hx. now rewrite (Hd x Hx). }
  rewrite long_digits_decimal by auto.
  unfold count_digits. rewrite (filter_all _ _ Hd), length_map.
  unfold read_digits, digits_allowed.
  rewrite N.ltb_antisym.
  destruct (N.of_nat (List.length (c :: g)) <=? int_max_str_digits)%N;
    reflexivity.
Qed.

(** ** The comparator *)

(** A valid string is three numbers between dots, between white space. *)
Lemma valid_decompose (s : str) :
  validate_semantic_version s = true ->
  exists l a b c r,
    s = l ++ dotted a b c ++ r /\ strip s = dotted a b c /\
    forallb Py_UNICODE_ISSPACE l = true /\
    forallb Py_UNICODE_ISSPACE r = true /\
    number_b a = true /\ number_b b = true /\ number_b c = true.
Proof.
  intros H. apply validate_shape in H.
  destruct H as [a [b [c [Hs [Ha [Hb Hc]]]]]].
  destruct (strip_with_split Py_UNICODE_ISSPACE s) as [l [r [E [Hl [Hr _]]]]].
  fold (strip s) in E. rewrite Hs in E.
  exists l, a, b, c, r. repeat split; assumption.
Qed.

Lemma no_dot_spaces (l : str) :
  forallb Py_UNICODE_ISSPACE l = true ->
  forallb (fun c => negb (c =? 0x2E)%N) l = true.
Proof.
  rewrite !forallb_forall. intros H x Hx.
  now rewrite space_not_dot by auto.
Qed.

Lemma no_dot_number (g : str) :
  number_b g = true -> forallb (fun c => negb (c =? 0x2E)%N) g = true.
Proof.
  intros H. apply number_decimal in H. destruct H as [H _].
  rewrite !forallb_forall in *. intros x Hx.
  now rewrite decimal_not_dot by auto.
Qed.

Lemma split_version (l a b c r : str) :
  forallb Py_UNICODE_ISSPACE l = true ->
  forallb Py_UNICODE_ISSPACE r = true ->
  number_b a = true -> number_b b = true -> number_b c = true ->
  split (chr ".") (l ++ dotted a b c ++ r) = [l ++ a; b; c ++ r].
Proof.
  intros Hl Hr Ha Hb Hc.
  change (chr ".") with 0x2E%N.
  replace (l ++ dotted a b c ++ r)
    with ((l ++ a) ++ 0x2E%N :: b ++ 0x2E%N :: (c ++ r)).
  2:{ unfold dotted. rewrite <- !app_assoc. simpl.
      rewrite <- !app_assoc. reflexivity. }
  assert (Hla : forallb (fun x => negb (x =? 0x2E)%N) (l ++ a) = true).
  { rewrite forallb_app, andb_true_iff.
    split; [now apply no_dot_spaces | now apply no_dot_number]. }
  assert (Hcr : forallb (fun x => negb (x =? 0x2E)%N) (c ++ r) = true).
  { rewrite forallb_app, andb_true_iff.
    split; [now apply no_dot_number | now apply no_dot_spaces]. }
  rewrite split_app by assumption.
  rewrite split_app by now apply no_dot_number.
  rewrite split_no_sep by assumption.
  reflexivity.
Qed.

Lemma int_outcome (s : str) :
  (exists z, int s = Ok z) \/ (exists p, int s = Raise (InvalidLiteral p)).
Proof.
  unfold int.
  destruct (match strip_with Py_ISSPACE (map to_ascii s) with
            | [] => _ | _ :: _ => _ end) as [negative unsigned].
  destruct (span _ unsigned) as [run rest].
  destruct (long_digits run false 0) as [n|]; [|eauto].
  destruct (int_max_str_digits <? count_digits run)%N; [eauto|].
  destruct rest; eauto.
Qed.

(** Parsing a valid string never fails on an index: the only exception it
    can raise is the ValueError of [int]. *)
Lemma parse_version_outcome (s : str) :
  validate_semantic_version s = true ->
  (exists t, parse_version s = Ok t) \/
  (exists p, parse_version s = Raise (InvalidLiteral p)).
Proof.
  intros H. destruct (valid_decompose s H)
    as [l [a [b [c [r [-> [_ [Hl [Hr [Ha [Hb Hc]]]]]]]]]]].
  unfold parse_version. rewrite split_version by assumption.
  cbn [item nth_error rbind].
  destruct (int_outcome (l ++ a)) as [[x ->] | [p ->]]; cbn [rbind];
    [|right; eauto].
  destruct (int_outcome b) as [[y ->] | [p ->]]; cbn [rbind]; [|right; eauto].
  destruct (int_outcome (c ++ r)) as [[z ->] | [p ->]]; cbn [rbind];
    [|right; eauto].
  left. eauto.
Qed.

Lemma separator_free_app (x y : str) :
  separator_free (x ++ y) = separator_free x && separator_free y.
Proof. apply forallb_app. Qed.

(** Three numbers between dots, between white space that holds no
    separator, parse as the three runs of digits read one after the
    other. *)
Lemma parse_version_groups (l a b c r : str) :
  forallb Py_UNICODE_ISSPACE l = true -> separator_free l = true ->
  forallb Py_UNICODE_ISSPACE r = true -> separator_free r = true ->
  number_b a = true -> number_b b = true -> number_b c = true ->
  parse_version (l ++ dotted a b c ++ r)
  = rbind (read_digits a) (fun x =>
    rbind (read_digits b) (fun y =>
    rbind (read_digits c) (fun z => Ok (x, y, z)))).
Proof.
  intros Hl Sl Hr Sr Ha Hb Hc.
  unfold parse_version. rewrite split_version by assumption.
  cbn [item nth_error rbind].
  destruct (number_decimal a Ha) as [Da Na].
  destruct (number_decimal b Hb) as [Db Nb].
  destruct (number_decimal c Hc) as [Dc Nc].
  pose proof (int_padded l a [] Hl Sl eq_refl eq_refl Da Na) as E1.
  pose proof (int_padded [] b [] eq_refl eq_refl eq_refl eq_refl Db Nb) as E2.
  pose proof (int_padded [] c r eq_refl eq_refl Hr Sr Dc Nc) as E3.
  rewrite app_nil_r in E1, E2. cbn [app] in E2, E3.
  rewrite E1. destruct (read_digits a); cbn [rbind]; [|reflexivity].
  rewrite E2. destruct (read_digits b); cbn [rbind]; [|reflexivity].
  now rewrite E3.
Qed.

Lemma split_dotted (a b c : str) :
  number_b a = true -> number_b b = true -> number_b c = true ->
  split 0x2E%N (dotted a b c) = [a; b; c].
Proof.
  intros Ha Hb Hc.
  pose proof (split_version [] a b c [] eq_refl eq_refl Ha Hb Hc) as E.
  cbn [app] in E. now rewrite !app_nil_r in E.
Qed.

(** The digit limit of a valid string is the limit on its three numbers. *)
Lemma within_limit_groups (s a b c : str) :
  strip s = dotted a b c ->
  number_b a = true -> number_b b = true -> number_b c = true ->
  within_digit_limit s
  = digits_allowed a && digits_allowed b && digits_allowed c.
Proof.
  intros E Ha Hb Hc. unfold within_digit_limit.
  rewrite E, split_dotted by assumption. cbn [forallb].
  now rewrite andb_true_r, andb_assoc.
Qed.

(** A valid string with no separator around it and within the digit limit
    parses into the values of its three numbers. *)
Theorem parse_version_valid (s : str) :
  validate_semantic_version s = true -> separator_free s = true ->
  within_digit_limit s = true ->
  exists a b c,
    strip s = dotted a b c /\
    number_b a = true /\ number_b b = true /\ number_b c = true /\
    parse_version s = Ok (decimal_value a, decimal_value b, decimal_value c).
Proof.
  intros H Hsep Hlim. destruct (valid_decompose s H)
    as [l [a [b [c [r [E [Hs [Hl [Hr [Ha [Hb Hc]]]]]]]]]]].
  exists a, b, c. repeat split; try assumption.
  rewrite (within_limit_groups s a b c Hs Ha Hb Hc) in Hlim.
  apply andb_prop in Hlim. destruct Hlim as [Hlim Lc].
  apply andb_prop in Hlim. destruct Hlim as [La Lb].
  subst s. rewrite !separator_free_app in Hsep.
  apply andb_prop in Hsep. destruct Hsep as [Sl Hsep].
  apply andb_prop in Hsep. destruct Hsep as [_ Sr].
  rewrite parse_version_groups by assumption.
  unfold read_digits. now rewrite La, Lb, Lc.
Qed.

Lemma read_digits_outcome (g : str) :
  if digits_allowed g then read_digits g = Ok (decimal_value g)
  else exists digits,
      read_digits g = Raise (InvalidLiteral digits) /\ over_limit digits.
Proof.
  unfold read_digits. destruct (digits_allowed g) eqn:A; [reflexivity|].
  eexists. split; [reflexivity|]. unfold over_limit, digits_allowed in *.
  rewrite length_map. now apply N.leb_gt in A.
Qed.

Lemma parse_version_over_limit (s : str) :
  validate_semantic_version s = true -> separator_free s = true ->
  within_digit_limit s = false ->
  exists digits,
    parse_version s = Raise (InvalidLiteral digits) /\ over_limit digits.
Proof.
  intros H Hsep Hlim. destruct (valid_decompose s H)
    as [l [a [b [c [r [E [Hs [Hl [Hr [Ha [Hb Hc]]]]]]]]]]].
  rewrite (within_limit_groups s a b c Hs Ha Hb Hc) in Hlim.
  subst s. rewrite !separator_free_app in Hsep.
  apply andb_prop in Hsep. destruct Hsep as [Sl Hsep].
  apply andb_prop in Hsep. destruct Hsep as [_ Sr].
  rewrite parse_version_groups by assumption.
  pose proof (read_digits_outcome a) as Ra.
  pose proof (read_digits_outcome b) as Rb.
  pose proof (read_digits_outcome c) as Rc.
  destruct (digits_allowed a);
    [rewrite Ra; cbn [rbind]
    |destruct Ra as [d [-> O]]; exists d; split; [reflexivity | exact O]].
  destruct (digits_allowed b);
    [rewrite Rb; cbn [rbind]
    |destruct Rb as [d [-> O]]; exists d; split; [reflexivity | exact O]].
  destruct (digits_allowed c); [discriminate Hlim|].
  destruct Rc as [d [-> O]]. exists d. split; [reflexivity | exact O].
Qed.

Lemma tuple_lt_lex (x y : Z * Z * Z) : tuple_lt x y = true <-> lex_lt x y.
Proof.
  destruct x as [[a b] c], y as [[a' b'] c']. unfold tuple_lt, lex_lt.
  destruct (Z.eqb_spec a a'), (Z.eqb_spec b b'), (Z.eqb_spec c c');
    cbn [negb]; rewrite ?Z.ltb_lt;
    first [lia | split; [discriminate | lia]].
Qed.

Lemma tuple_gt_lex (x y : Z * Z * Z) : tuple_gt x y = true <-> lex_lt y x.
Proof.
  destruct x as [[a b] c], y as [[a' b'] c']. unfold tuple_gt, lex_lt.
  destruct (Z.eqb_spec a a'), (Z.eqb_spec b b'), (Z.eqb_spec c c');
    cbn [negb]; rewrite ?Z.gtb_ltb, ?Z.ltb_lt;
    first [lia | split; [discriminate | lia]].
Qed.

Lemma lex_trichotomy (x y : Z * Z * Z) : lex_lt x y \/ x = y \/ lex_lt y x.
Proof.
  destruct x as [[a b] c], y as [[a' b'] c']. unfold lex_lt.
  destruct (Z.lt_total a a') as [|[|]]; [lia | | lia].
  destruct (Z.lt_total b b') as [|[|]]; [lia | | lia].
  destruct (Z.lt_total c c') as [|[|]]; [lia | | lia].
  right. left. congruence.
Qed.

Lemma lex_irrefl (x : Z * Z * Z) : ~ lex_lt x x.
Proof. destruct x as [[a b] c]. unfold lex_lt. lia. Qed.

Lemma lex_asym (x y : Z * Z * Z) : lex_lt x y -> ~ lex_lt y x.
Proof.
  destruct x as [[a b] c], y as [[a' b'] c']. unfold lex_lt. lia.
Qed.

(** Once both strings have parsed, the result is the three-way
    lexicographic comparison of the two triples. *)
Lemma compare_parsed (v1 v2 : str) (t1 t2 : Z * Z * Z) :
  validate_semantic_version v1 = true ->
  validate_semantic_version v2 = true ->
  parse_version v1 = Ok t1 -> parse_version v2 = Ok t2 ->
  (lex_lt t1 t2 -> compare_versions v1 v2 = Ok (-1)%Z) /\
  (t1 = t2 -> compare_versions v1 v2 = Ok 0%Z) /\
  (lex_lt t2 t1 -> compare_versions v1 v2 = Ok 1%Z).
Proof.
  intros H1 H2 P1 P2. unfold compare_versions.
  rewrite H1, H2, P1, P2. cbn [negb orb rbind].
  destruct (tuple_lt t1 t2) eqn:L; [apply tuple_lt_lex in L|].
  - split; [reflexivity|]. split; intros H; exfalso.
    + subst. now apply lex_irrefl in L.
    + now apply lex_asym in L.
  - assert (NL : ~ lex_lt t1 t2) by (rewrite <- tuple_lt_lex; congruence).
    destruct (tuple_gt t1 t2) eqn:G; [apply tuple_gt_lex in G|].
    + split; [tauto|]. split; [|reflexivity].
      intros ->. now apply lex_irrefl in G.
    + assert (NG : ~ lex_lt t2 t1) by (rewrite <- tuple_gt_lex; congruence).
      split; [tauto|]. split; [reflexivity | tauto].
Qed.

(** Valid versions with no separator around them and within the digit
    limit compare as their (major, minor, patch) triples do,
    lexicographically. *)
Theorem compare_versions_lexicographic (v1 v2 : str) :
  validate_semantic_version v1 = true -> separator_free v1 = true ->
  within_digit_limit v1 = true ->
  validate_semantic_version v2 = true -> separator_free v2 = true ->
  within_digit_limit v2 = true ->
  exists t1 t2,
    parse_version v1 = Ok t1 /\ parse_version v2 = Ok t2 /\
    (lex_lt t1 t2 -> compare_versions v1 v2 = Ok (-1)%Z) /\
    (t1 = t2 -> compare_versions v1 v2 = Ok 0%Z) /\
    (lex_lt t2 t1 -> compare_versions v1 v2 = Ok 1%Z).
Proof.
  intros H1 S1 L1 H2 S2 L2.
  destruct (parse_version_valid v1 H1 S1 L1)
    as [a1 [b1 [c1 [_ [_ [_ [_ P1]]]]]]].
  destruct (parse_version_valid v2 H2 S2 L2)
    as [a2 [b2 [c2 [_ [_ [_ [_ P2]]]]]]].
  eexists. eexists. split; [exact P1|]. split; [exact P2|].
  now apply compare_parsed.
Qed.

(** An argument that fails validation makes the comparison raise the
    script's ValueError, whatever the other argument is. *)
Theorem compare_versions_invalid (v1 v2 : str) :
  validate_semantic_version v1 = false \/ validate_semantic_version v2 = false ->
  compare_versions v1 v2
  = Raise (ValueError (lit "Both versions must be valid semantic versions")).
Proof.
  unfold compare_versions. intros [H | H]; rewrite H; cbn [negb orb];
    [reflexivity | now rewrite orb_true_r].
Qed.

(** Whatever its arguments, the comparison returns -1, 0 or 1 or raises a
    ValueError: no other exception leaves it. *)
Theorem compare_versions_outcome (v1 v2 : str) :
  match compare_versions v1 v2 with
  | Ok z => (z = -1 \/ z = 0 \/ z = 1)%Z
  | Raise e => is_ValueError e = true
  end.
Proof.
  unfold compare_versions.
  destruct (validate_semantic_version v1) eqn:H1; [|reflexivity].
  destruct (validate_semantic_version v2) eqn:H2; [|reflexivity].
  cbn [negb orb].
  destruct (parse_version_outcome v1 H1) as [[t1 ->] | [p ->]]; [|reflexivity].
  destruct (parse_version_outcome v2 H2) as [[t2 ->] | [p ->]]; [|reflexivity].
  cbn [rbind].
  destruct (tuple_lt t1 t2); [auto|]. destruct (tuple_gt t1 t2); auto.
Qed.

(** ** The file reader *)

Lemma validate_strip (s : str) :
  validate_semantic_version (strip s) = validate_semantic_version s.
Proof.
  unfold validate_semantic_version, strip.
  now rewrite strip_with_idempotent.
Qed.

Ltac io_unfold :=
  unfold try_except, bind, ret, raise, lift, print, subprocess_run,
    open_read, str_of_exn, sys_exit; cbv beta.

(** What the reader returns, and what it leaves in the world, case by case
    on what the file system answers. *)
Lemma read_version_from_file_cases (file_path : str) (rt : env) (w : world) :
  match read_file rt file_path with
  | FileText text =>
      if validate_semantic_version text then
        read_version_from_file file_path rt w = (Ok (Some (strip text)), w)
      else
        read_version_from_file file_path rt w
        = (Ok None,
           {| sys_stdout := sys_stdout w ++
                [lit "Error: Invalid semantic version format in " ++ file_path
                 ++ lit ": " ++ strip text];
              sys_stderr := sys_stderr w;
              spawned := spawned w |})
  | FileMissing =>
      read_version_from_file file_path rt w
      = (Ok None,
         {| sys_stdout := sys_stdout w ++
              [lit "Error: " ++ file_path ++ lit " file not found"];
            sys_stderr := sys_stderr w;
            spawned := spawned w |})
  | FileFailure text =>
      read_version_from_file file_path rt w
      = (Ok None,
         {| sys_stdout := sys_stdout w ++
              [lit "Error reading " ++ file_path ++ lit ": " ++ text];
            sys_stderr := sys_stderr w;
            spawned := spawned w |})
  end.
Proof.
  unfold read_version_from_file. io_unfold.
  destruct (read_file rt file_path) as [text| |text]; try reflexivity.
  rewrite validate_strip.
  destruct (validate_semantic_version text); reflexivity.
Qed.

(** C5: the reader returns the stripped content of the file when the
    content is a valid version and nothing otherwise, without raising: a
    file holding " 1.0.0 " and a newline yields "1.0.0", a path that does
    not exist yields nothing, and a file holding "1.0" yields nothing. *)
Theorem read_version_from_file_result :
  (forall file_path rt w,
     fst (read_version_from_file file_path rt w)
     = Ok match read_file rt file_path with
          | FileText text =>
              if validate_semantic_version text then Some (strip text) else None
          | FileMissing | FileFailure _ => None
          end) /\
  fst (read_version_from_file (lit "VERSION")
         (one_file (lit "VERSION") (FileText (lit " 1.0.0 " ++ [0x0A%N])))
         initial)
  = Ok (Some (lit "1.0.0")) /\
  fst (read_version_from_file (lit "VERSION")
         (one_file (lit "README") (FileText (lit "1.0.0")))
         initial)
  = Ok None /\
  fst (read_version_from_file (lit "VERSION")
         (one_file (lit "VERSION") (FileText (lit "1.0")))
         initial)
  = Ok None.
Proof.
  split; [|repeat split; reflexivity].
  intros file_path rt w.
  pose proof (read_version_from_file_cases file_path rt w) as H.
  destruct (read_file rt file_path) as [text| |text];
    [destruct (validate_semantic_version text)| |]; now rewrite H.
Qed.

(** C8, as the code has it: when the file is missing, its content is
    invalid or reading fails, the reader prints one diagnostic line on
    standard output, leaves standard error untouched, and returns
    nothing. *)
Theorem read_version_from_file_diagnostic (file_path : str) (rt : env) (w : world) :
  unreadable (read_file rt file_path) = true ->
  exists line,
    read_version_from_file file_path rt w = (Ok None, printed w line).
Proof.
  intros H. pose proof (read_version_from_file_cases file_path rt w) as C.
  destruct (read_file rt file_path) as [text| |text].
  - simpl in H. apply negb_true_iff in H. rewrite H in C. eauto.
  - eauto.
  - eauto.
Qed.

Lemma read_version_from_file_diagnostic_witness :
  unreadable (read_file (one_file (lit "README") FileMissing) (lit "VERSION")) = true /\
  exists line,
    read_version_from_file (lit "VERSION") (one_file (lit "README") FileMissing)
      initial
    = (Ok None, printed initial line).
Proof.
  split; [reflexivity|].
  apply (read_version_from_file_diagnostic (lit "VERSION")
           (one_file (lit "README") FileMissing) initial).
  reflexivity.
Defined.

(** C8 as stated fails: reading a path that does not exist leaves standard
    error empty and puts the diagnostic on standard output. *)
Lemma read_version_from_file_not_on_stderr :
  unreadable (read_file (one_file (lit "README") FileMissing) (lit "VERSION")) = true /\
  ~ reported_on_stderr initial
      (snd (read_version_from_file (lit "VERSION")
              (one_file (lit "README") FileMissing) initial)).
Proof.
  split; [reflexivity|].
  intros [[line H] _]. cbn in H. destruct line; discriminate.
Qed.

(** ** The tag-existence checker *)

Lemma nonempty_truthy (s : str) : negb (str_eqb s (lit "")) = truthy s.
Proof. destruct s; reflexivity. Qed.

(** What the checker returns and leaves in the world, case by case on what
    the two queries answer. *)
Lemma git_tag_exists_cases (version : str) (rt : env) (w : world) :
  let w1 := having_run w (local_tag_query version) in
  let w2 := having_run w1 (remote_tag_query version) in
  match run_process rt (local_tag_query version) with
  | NotRun text =>
      git_tag_exists version rt w
      = (Ok false, printed w1 (lit "Error checking git tag existence: " ++ text))
  | Completed rc out =>
      if tag_listed (Completed rc out) then
        git_tag_exists version rt w = (Ok true, w1)
      else
        match run_process rt (remote_tag_query version) with
        | NotRun text =>
            git_tag_exists version rt w
            = (Ok false,
               printed w2 (lit "Error checking git tag existence: " ++ text))
        | Completed rc' out' =>
            git_tag_exists version rt w
            = (Ok (tag_listed (Completed rc' out')), w2)
        end
  end.
Proof.
  unfold git_tag_exists. io_unfold.
  fold (local_tag_query version). fold (remote_tag_query version).
  destruct (run_process rt (local_tag_query version)) as [rc out|text];
    [|reflexivity].
  cbn [andb negb returncode stdout tag_listed].
  destruct ((rc =? 0)%Z && truthy (strip out)); [reflexivity|].
  destruct (run_process rt (remote_tag_query version)) as [rc' out'|text];
    [|reflexivity].
  cbn [andb negb returncode stdout tag_listed].
  now rewrite nonempty_truthy.
Qed.

(** The checker in terms of what the two queries answer: it never
    raises.  When the local query runs, its answer is the disjunction of
    the local query and the remote query printing something with status
    0; a local query that prints something is reported at once, the
    remote not being asked; and a query that raises ends the check with
    false and a diagnostic. *)
Lemma git_tag_exists_or (version : str) (rt : env) (w : world) :
  let local := run_process rt (local_tag_query version) in
  let remote := run_process rt (remote_tag_query version) in
  exists b w',
    git_tag_exists version rt w = (Ok b, w') /\
    (ran local = true -> b = tag_listed local || tag_listed remote) /\
    (tag_listed local = true ->
     b = true /\ spawned w' = spawned w ++ [local_tag_query version]) /\
    (ran local = false \/ (tag_listed local = false /\ ran remote = false) ->
     b = false /\ exists line, sys_stdout w' = sys_stdout w ++ [line]).
Proof.
  intros local remote.
  pose proof (git_tag_exists_cases version rt w) as C. cbv zeta in C.
  fold local in C. fold remote in C.
  destruct local as [rc out|text].
  - destruct (tag_listed (Completed rc out)) eqn:L.
    + eexists. eexists. split; [exact C|]. cbn [ran orb].
      split; [reflexivity|]. split; [intros _; split; reflexivity|].
      intros [H | [H _]]; discriminate.
    + destruct remote as [rc' out'|text].
      * eexists. eexists. split; [exact C|]. cbn [ran orb].
        split; [reflexivity|]. split; [discriminate|].
        intros [H | [_ H]]; discriminate.
      * eexists. eexists. split; [exact C|]. cbn [ran orb tag_listed].
        split; [reflexivity|]. split; [discriminate|].
        intros _. split; [reflexivity|]. cbn. eauto.
  - eexists. eexists. split; [exact C|]. cbn [ran orb tag_listed].
    split; [discriminate|]. split; [discriminate|].
    intros _. split; [reflexivity|]. cbn. eauto.
Qed.

Example git_tag_exists_or_tagged_locally :
  tag_listed (run_process tagged_locally (local_tag_query (lit "1.0.0"))) = true /\
  ran (run_process tagged_locally (local_tag_query (lit "1.0.1"))) = true /\
  fst (git_tag_exists (lit "1.0.0") tagged_locally initial) = Ok true /\
  fst (git_tag_exists (lit "1.0.1") tagged_locally initial) = Ok false.
Proof.
  split; [reflexivity|]. split; [reflexivity|]. split.
  - destruct (git_tag_exists_or (lit "1.0.0") tagged_locally initial)
      as [b [w' [E [_ [H _]]]]].
    rewrite E. destruct (H eq_refl) as [-> _]. reflexivity.
  - destruct (git_tag_exists_or (lit "1.0.1") tagged_locally initial)
      as [b [w' [E [H _]]]].
    rewrite E. rewrite (H eq_refl). reflexivity.
Qed.

(** C3: a checkout with no tag of its own, whose remote "origin" holds
    the one tag rel/v2.0.0.  The tag v2.0.0 is in neither store; the
    local query prints nothing, the remote query, which matches its
    pattern against the tail of each name, prints the line of rel/v2.0.0,
    and the checker reports that the tag v2.0.0 exists. *)
Theorem git_tag_exists_namesake :
  ~ tag_present namesake_at_origin (lit "v2.0.0") /\
  run_process (git_world namesake_at_origin) (local_tag_query (lit "2.0.0"))
  = Completed 0 (lit "") /\
  run_process (git_world namesake_at_origin) (remote_tag_query (lit "2.0.0"))
  = Completed 0
      (lit "5f2c1e0a9b8d7c6f4e3d2c1b0a99887766554433" ++ 0x09%N
       :: lit "refs/tags/rel/v2.0.0" ++ [0x0A%N]) /\
  git_tag_exists (lit "2.0.0") (git_world namesake_at_origin) initial
  = (Ok true,
     having_run (having_run initial (local_tag_query (lit "2.0.0")))
       (remote_tag_query (lit "2.0.0"))).
Proof.
  split; [|split; [reflexivity|split; reflexivity]].
  unfold tag_present, advertised, namesake_at_origin.
  cbn [local_tags origin_tags In].
  intros [H | [H | H]]; [exact H | discriminate H | exact H].
Qed.

(** ** The commit version-change detector *)

(** What the detector returns and leaves in the world, case by case on
    what the two commands answer. *)
Lemma get_git_commit_version_change_cases (commit_hash : str) (rt : env)
    (w : world) :
  let w1 := having_run w (diff_command commit_hash) in
  let w2 := having_run w1 (show_command commit_hash) in
  let run := get_git_commit_version_change commit_hash rt w in
  match run_process rt (diff_command commit_hash) with
  | NotRun text => run = (Ok None, printed w1 (lit "Unexpected error: " ++ text))
  | Completed rc files =>
      if (rc =? 0)%Z then
        if version_file_changed files then
          match run_process rt (show_command commit_hash) with
          | NotRun text =>
              run = (Ok None, printed w2 (lit "Unexpected error: " ++ text))
          | Completed rc' content =>
              if (rc' =? 0)%Z then
                if validate_semantic_version content then
                  run = (Ok (Some (strip content)), w2)
                else
                  run = (Ok None,
                         printed w2
                           (lit "Error: Invalid version format in commit "
                            ++ commit_hash ++ lit ": " ++ strip content))
              else
                run = (Ok None,
                       printed w2
                         (lit "Error checking git commit changes: "
                          ++ exn_text rt
                               (CalledProcessError (show_command commit_hash) rc')))
          end
        else run = (Ok None, w1)
      else
        run = (Ok None,
               printed w1
                 (lit "Error checking git commit changes: "
                  ++ exn_text rt
                       (CalledProcessError (diff_command commit_hash) rc)))
  end.
Proof.
  cbv zeta. unfold get_git_commit_version_change. io_unfold.
  fold (diff_command commit_hash). fold (show_command commit_hash).
  destruct (run_process rt (diff_command commit_hash)) as [rc files|text];
    [|reflexivity].
  destruct (rc =? 0)%Z; cbn [andb negb]; [|reflexivity].
  cbn [stdout]. fold (version_file_changed files).
  destruct (version_file_changed files); [|reflexivity].
  destruct (run_process rt (show_command commit_hash)) as [rc' content|text];
    [|reflexivity].
  destruct (rc' =? 0)%Z; cbn [andb negb]; [|reflexivity].
  cbn [stdout]. rewrite validate_strip.
  destruct (validate_semantic_version content); reflexivity.
Qed.

Lemma str_eqb_eq (a b : str) : str_eqb a b = true <-> a = b.
Proof.
  unfold str_eqb. destruct (list_eq_dec N.eq_dec a b); split; congruence.
Qed.

Lemma contains_In (xs : list str) (x : str) :
  contains xs x = true <-> In x xs.
Proof.
  unfold contains. rewrite existsb_exists. split.
  - intros [y [Hy E]]. apply str_eqb_eq in E. now subst.
  - intros H. exists x. split; [exact H | now apply str_eqb_eq].
Qed.

Lemma unlines_joined (names : list str) :
  names <> [] -> unlines names = joined names ++ [0x0A%N].
Proof.
  unfold unlines. induction names as [|n rest IH]; [congruence|]. intros _.
  destruct rest as [|m rest]; [simpl; now rewrite app_nil_r|].
  cbn [map List.concat joined]. cbn [map List.concat] in IH.
  rewrite IH by discriminate. now rewrite <- !app_assoc.
Qed.

Lemma split_joined (names : list str) :
  names <> [] -> forallb plain_path names = true ->
  split 0x0A%N (joined names) = names.
Proof.
  induction names as [|n rest IH]; [congruence|]. intros _ H.
  cbn [forallb] in H. apply andb_prop in H. destruct H as [Hn Hrest].
  unfold plain_path in Hn. apply andb_prop in Hn. destruct Hn as [Hn _].
  apply andb_prop in Hn. destruct Hn as [_ Hn].
  destruct rest as [|m rest].
  - cbn [joined]. now apply split_no_sep.
  - cbn [joined]. cbn [joined] in IH.
    rewrite split_app by assumption. f_equal. apply IH; [discriminate | assumption].
Qed.

Lemma joined_ends (names : list str) :
  names <> [] -> forallb plain_path names = true ->
  exists c t d,
    (joined names = [c] /\ c = d \/ joined names = c :: t ++ [d]) /\
    Py_UNICODE_ISSPACE c = false /\ Py_UNICODE_ISSPACE d = false.
Proof.
  induction names as [|n rest IH]; [congruence|]. intros _ H.
  cbn [forallb] in H. apply andb_prop in H. destruct H as [Hn Hrest].
  unfold plain_path in Hn. apply andb_prop in Hn. destruct Hn as [Hn Ht].
  apply andb_prop in Hn. destruct Hn as [Hne _].
  destruct n as [|c n]; [discriminate|].
  pose proof (trimmed_cons _ _ _ Ht) as Hc.
  destruct rest as [|m rest].
  - cbn [joined].
    destruct n as [|x n]; [exists c, [], c; auto|].
    destruct (exists_last (l := x :: n) ltac:(discriminate)) as [t [d E]].
    rewrite E in *. change (c :: t ++ [d]) with ((c :: t) ++ [d]) in Ht.
    apply trimmed_snoc in Ht. exists c, t, d. auto.
  - destruct (IH ltac:(discriminate) Hrest) as [c' [t' [d' [E [_ Hd']]]]].
    cbn [joined]. cbn [joined] in E.
    exists c, (n ++ 0x0A%N :: removelast (joined (m :: rest))), d'.
    split; [|auto]. right. cbn [joined].
    rewrite <- app_comm_cons, <- app_assoc. cbn [app]. do 3 f_equal.
    destruct E as [[E ->] | E]; rewrite E.
    + reflexivity.
    + change (c' :: t' ++ [d']) with ((c' :: t') ++ [d']).
      now rewrite removelast_last.
Qed.

Lemma changed_iff_listed (names : list str) :
  forallb plain_path names = true ->
  version_file_changed (unlines names) = true <-> In (lit "VERSION") names.
Proof.
  intros H. unfold version_file_changed. rewrite contains_In.
  destruct names as [|n rest]; [cbv; intuition discriminate|].
  assert (Hne : n :: rest <> []) by discriminate.
  rewrite unlines_joined by assumption.
  destruct (joined_ends _ Hne H) as [c [t [d [E [Hc Hd]]]]].
  assert (T : trimmed Py_UNICODE_ISSPACE (joined (n :: rest)) = true).
  { destruct E as [[E ->] | E]; rewrite E.
    - unfold trimmed. cbn [last]. now rewrite Hc.
    - now apply trimmed_ends. }
  pose proof (strip_with_unique Py_UNICODE_ISSPACE [] (joined (n :: rest))
                [0x0A%N] eq_refl eq_refl T) as S.
  cbn [app] in S. unfold strip. rewrite S.
  rewrite split_joined by assumption. reflexivity.
Qed.

(** X17: on the listing of plain paths, one per line, the detector's test
    is membership: the version file counts as changed exactly when the
    name VERSION is one of the paths listed, and a path that merely ends
    in it does not count. *)
Theorem version_file_changed_names (names : list str) :
  forallb plain_path names = true ->
  version_file_changed (unlines names) = true <-> In (lit "VERSION") names.
Proof. exact (changed_iff_listed names). Qed.

(** The detector in terms of its own test on the output of the diff: it
    never raises.  It returns the stripped content of the version file as
    recorded in the commit when the diff against the parent succeeds,
    the test finds the name and that content is a valid version; it
    returns nothing when the test does not find the name, when the diff
    fails (as it does for a commit without a parent), when the content
    cannot be retrieved, or when the content is not a valid version; a
    failed command and an invalid content leave a diagnostic. *)
Lemma get_git_commit_version_change_result (commit_hash : str) (rt : env)
    (w : world) :
  let diff := run_process rt (diff_command commit_hash) in
  let show := run_process rt (show_command commit_hash) in
  exists r w',
    get_git_commit_version_change commit_hash rt w = (Ok r, w') /\
    (forall files content,
        succeeded diff = Some files -> version_file_changed files = true ->
        succeeded show = Some content ->
        validate_semantic_version content = true ->
        r = Some (strip content)) /\
    (forall files,
        succeeded diff = Some files -> version_file_changed files = false ->
        r = None /\ sys_stdout w' = sys_stdout w) /\
    (succeeded diff = None ->
     r = None /\ exists line, sys_stdout w' = sys_stdout w ++ [line]) /\
    (forall files,
        succeeded diff = Some files -> version_file_changed files = true ->
        succeeded show = None ->
        r = None /\ exists line, sys_stdout w' = sys_stdout w ++ [line]) /\
    (forall files content,
        succeeded diff = Some files -> version_file_changed files = true ->
        succeeded show = Some content ->
        validate_semantic_version content = false ->
        r = None /\ exists line, sys_stdout w' = sys_stdout w ++ [line]).
Proof.
  intros diff show.
  pose proof (get_git_commit_version_change_cases commit_hash rt w) as C.
  cbv zeta in C. fold diff in C. fold show in C.
  destruct diff as [rc files|text]; cbn [succeeded];
    [destruct (rc =? 0)%Z;
     [destruct (version_file_changed files) eqn:Ch;
      [destruct show as [rc' content|text]; cbn [succeeded];
       [destruct (rc' =? 0)%Z;
        [destruct (validate_semantic_version content) eqn:V|]|]|]|]|];
    (eexists; eexists; split; [exact C|]);
    cbn [sys_stdout printed having_run];
    repeat split; intros; try discriminate; try congruence; eauto.
Qed.

Example get_git_commit_version_change_release :
  let diff := run_process release_commit (diff_command (lit "HEAD")) in
  let show := run_process release_commit (show_command (lit "HEAD")) in
  let files := lit "README.md" ++ [0x0A%N] ++ lit "VERSION" ++ [0x0A%N] in
  let content := lit "1.2.3" ++ [0x0A%N] in
  succeeded diff = Some files /\ version_file_changed files = true /\
  succeeded show = Some content /\
  validate_semantic_version content = true /\
  fst (get_git_commit_version_change (lit "HEAD") release_commit initial)
  = Ok (Some (lit "1.2.3")).
Proof.
  intros diff show files content.
  split; [reflexivity|]. split; [reflexivity|]. split; [reflexivity|].
  split; [reflexivity|].
  destruct (get_git_commit_version_change_result (lit "HEAD") release_commit
              initial) as [r [w' [E [H _]]]].
  rewrite E. rewrite (H files content eq_refl eq_refl eq_refl eq_refl).
  reflexivity.
Qed.

(** C6: a commit that changed the one file " VERSION", whose name starts
    with a space, and left VERSION as it was, holding "1.0.0".  The diff
    lists the one path, which is not VERSION; the detector strips the
    whole listing before it splits it into lines, finds VERSION, and
    returns "1.0.0" as the version that the commit changed. *)
Theorem get_git_commit_version_change_unchanged_file :
  run_process spaced_name_commit (diff_command (lit "HEAD"))
  = Completed 0 (unlines [lit " VERSION"]) /\
  ~ In (lit "VERSION") [lit " VERSION"] /\
  strip (unlines [lit " VERSION"]) = lit "VERSION" /\
  get_git_commit_version_change (lit "HEAD") spaced_name_commit initial
  = (Ok (Some (lit "1.0.0")),
     having_run (having_run initial (diff_command (lit "HEAD")))
       (show_command (lit "HEAD"))).
Proof.
  split; [reflexivity|]. split; [|split; reflexivity].
  intros [H | H]; [discriminate H | exact H].
Qed.

(** ** What the two readers hand out *)

Lemma stripped_valid (text : str) :
  validate_semantic_version text = true ->
  validate_semantic_version (strip text) = true /\
  strip (strip text) = strip text /\
  trimmed Py_UNICODE_ISSPACE (strip text) = true.
Proof.
  intros H. rewrite validate_strip. split; [exact H|]. split.
  - apply strip_with_idempotent.
  - apply strip_with_trimmed.
Qed.

(** C10: a version that the file reader or the commit detector returns
    passes the validator and is its own stripped form, with white space
    neither first nor last. *)
Theorem returned_version_valid_and_stripped (arg : str) (rt : env)
    (w w' : world) (v : str) :
  read_version_from_file arg rt w = (Ok (Some v), w') \/
  get_git_commit_version_change arg rt w = (Ok (Some v), w') ->
  validate_semantic_version v = true /\
  strip v = v /\
  trimmed Py_UNICODE_ISSPACE v = true.
Proof.
  intros [H | H].
  - pose proof (read_version_from_file_cases arg rt w) as C.
    destruct (read_file rt arg) as [text| |text];
      [destruct (validate_semantic_version text) eqn:V| |];
      rewrite C in H; try discriminate.
    injection H as <- _. now apply stripped_valid.
  - pose proof (get_git_commit_version_change_cases arg rt w) as C.
    cbv zeta in C.
    destruct (run_process rt (diff_command arg)) as [rc files|text];
      [destruct (rc =? 0)%Z;
       [destruct (version_file_changed files);
        [destruct (run_process rt (show_command arg)) as [rc' content|text];
         [destruct (rc' =? 0)%Z;
          [destruct (validate_semantic_version content) eqn:V|]|]|]|]|];
      rewrite C in H; try discriminate.
    injection H as <- _. now apply stripped_valid.
Qed.

Lemma returned_version_valid_and_stripped_witness :
  let rt := one_file (lit "VERSION") (FileText (lit " 1.0.0 " ++ [0x0A%N])) in
  read_version_from_file (lit "VERSION") rt initial
  = (Ok (Some (lit "1.0.0")), initial) /\
  validate_semantic_version (lit "1.0.0") = true /\
  strip (lit "1.0.0") = lit "1.0.0" /\
  trimmed Py_UNICODE_ISSPACE (lit "1.0.0") = true.
Proof.
  intros rt. split; [reflexivity|].
  apply (returned_version_valid_and_stripped (lit "VERSION") rt initial initial).
  left. reflexivity.
Defined.

(** A valid version is not the empty string. *)
Lemma valid_truthy (v : str) :
  validate_semantic_version v = true -> truthy v = true.
Proof.
  intros H. destruct v; [discriminate | reflexivity].
Qed.

(** ** The dispatcher *)

Lemma git_tag_exists_total (version : str) (rt : env) (w : world) :
  exists b w', git_tag_exists version rt w = (Ok b, w').
Proof.
  pose proof (git_tag_exists_cases version rt w) as C. cbv zeta in C.
  destruct (run_process rt (local_tag_query version)) as [rc out|text];
    [destruct (tag_listed (Completed rc out));
     [|destruct (run_process rt (remote_tag_query version))]|];
    eauto.
Qed.

Lemma read_version_from_file_total (file_path : str) (rt : env) (w : world) :
  exists r w',
    read_version_from_file file_path rt w = (Ok r, w') /\
    some_truthy r = match r with Some _ => true | None => false end.
Proof.
  pose proof (read_version_from_file_cases file_path rt w) as C.
  destruct (read_file rt file_path) as [text| |text];
    [destruct (validate_semantic_version text) eqn:V| |];
    eexists; eexists; (split; [exact C|]); try reflexivity.
  apply valid_truthy. now rewrite validate_strip.
Qed.

Lemma get_git_commit_version_change_total (commit_hash : str) (rt : env)
    (w : world) :
  exists r w',
    get_git_commit_version_change commit_hash rt w = (Ok r, w') /\
    some_truthy r = match r with Some _ => true | None => false end.
Proof.
  pose proof (get_git_commit_version_change_cases commit_hash rt w) as C.
  cbv zeta in C.
  destruct (run_process rt (diff_command commit_hash)) as [rc files|text];
    [destruct (rc =? 0)%Z;
     [destruct (version_file_changed files);
      [destruct (run_process rt (show_command commit_hash)) as [rc' content|text];
       [destruct (rc' =? 0)%Z;
        [destruct (validate_semantic_version content) eqn:V|]|]|]|]|];
    eexists; eexists; (split; [exact C|]); try reflexivity.
  apply valid_truthy. now rewrite validate_strip.
Qed.

Ltac main_unfold :=
  unfold main, run_script; io_unfold;
  cbn [List.length Nat.ltb Nat.leb Nat.eqb negb item nth_error].

Lemma main_no_command (argv : list str) (rt : env) (w : world) :
  (List.length argv < 2)%nat ->
  run_script (main argv) rt w
  = (1%Z, {| sys_stdout := sys_stdout w ++ usage;
             sys_stderr := sys_stderr w;
             spawned := spawned w |}).
Proof.
  intros H. destruct argv as [|p [|c args]]; [| |simpl in H; lia];
    unfold main, run_script; cbn [List.length Nat.ltb Nat.leb];
    unfold usage; cbn [print_all]; io_unfold;
    cbn [sys_stdout sys_stderr spawned]; rewrite <- !app_assoc; reflexivity.
Qed.

Lemma main_validate (prog : str) (args : list str) (rt : env) (w : world) :
  run_script (main (prog :: lit "validate" :: args)) rt w =
  match args with
  | [version] =>
      if validate_semantic_version version
      then (0%Z, printed w (check_mark ++ lit " Version " ++ version
                            ++ lit " is valid"))
      else (1%Z, printed w (cross_mark ++ lit " Version " ++ version
                            ++ lit " is invalid"))
  | _ => (1%Z, printed w (lit "Usage: python version_utils.py validate <version>"))
  end.
Proof.
  destruct args as [|v [|v' args]]; try reflexivity.
  main_unfold.
  change (str_eqb (lit "validate") (lit "validate")) with true. cbv beta iota.
  destruct (validate_semantic_version v); reflexivity.
Qed.

Lemma main_check_tag (prog : str) (args : list str) (rt : env) (w : world) :
  match args with
  | [version] =>
      exists b w',
        git_tag_exists version rt w = (Ok b, w') /\
        run_script (main (prog :: lit "check-tag" :: args)) rt w
        = if b
          then (1%Z, printed w' (cross_mark ++ lit " Tag v" ++ version
                                 ++ lit " already exists"))
          else (0%Z, printed w' (check_mark ++ lit " Tag v" ++ version
                                 ++ lit " does not exist"))
  | _ =>
      run_script (main (prog :: lit "check-tag" :: args)) rt w
      = (1%Z, printed w (lit "Usage: python version_utils.py check-tag <version>"))
  end.
Proof.
  destruct args as [|v [|v' args]]; try reflexivity.
  destruct (git_tag_exists_total v rt w) as [b [w' E]].
  exists b, w'. split; [exact E|].
  main_unfold.
  change (str_eqb (lit "check-tag") (lit "validate")) with false.
  change (str_eqb (lit "check-tag") (lit "check-tag")) with true. cbv beta iota.
  rewrite E. destruct b; reflexivity.
Qed.

Lemma main_read_version (prog : str) (args : list str) (rt : env) (w : world) :
  exists r w',
    read_version_from_file (hd (lit "VERSION") args) rt w = (Ok r, w') /\
    run_script (main (prog :: lit "read-version" :: args)) rt w
    = match r with
      | Some v => (0%Z, printed w' v)
      | None => (1%Z, w')
      end.
Proof.
  destruct (read_version_from_file_total (hd (lit "VERSION") args) rt w)
    as [r [w' [E T]]].
  exists r, w'. split; [exact E|].
  main_unfold.
  change (str_eqb (lit "read-version") (lit "validate")) with false.
  change (str_eqb (lit "read-version") (lit "check-tag")) with false.
  change (str_eqb (lit "read-version") (lit "read-version")) with true.
  cbv beta iota.
  destruct args as [|p args]; cbn [hd] in E;
    cbn [List.length Nat.leb Nat.ltb item nth_error];
    rewrite E; (destruct r as [v|]; [|reflexivity]);
    cbn [some_truthy] in T; rewrite T; reflexivity.
Qed.

Lemma main_compare (prog : str) (args : list str) (rt : env) (w : world) :
  fst (run_script (main (prog :: lit "compare" :: args)) rt w)
  = match args with
    | [v1; v2] =>
        match compare_versions v1 v2 with
        | Ok _ => 0%Z
        | Raise _ => 1%Z
        end
    | _ => 1%Z
    end /\
  match args with
  | [_; _] => True
  | _ =>
      snd (run_script (main (prog :: lit "compare" :: args)) rt w)
      = printed w
          (lit "Usage: python version_utils.py compare <version1> <version2>")
  end.
Proof.
  destruct args as [|v1 [|v2 [|v3 args]]]; try (split; reflexivity).
  split; [|exact I].
  main_unfold.
  change (str_eqb (lit "compare") (lit "validate")) with false.
  change (str_eqb (lit "compare") (lit "check-tag")) with false.
  change (str_eqb (lit "compare") (lit "read-version")) with false.
  change (str_eqb (lit "compare") (lit "compare")) with true.
  cbv beta iota.
  pose proof (compare_versions_outcome v1 v2) as O.
  destruct (compare_versions v1 v2) as [z|e].
  - destruct (z =? -1)%Z; [reflexivity|]. destruct (z =? 0)%Z; reflexivity.
  - rewrite O. reflexivity.
Qed.

Lemma main_check_commit (prog : str) (args : list str) (rt : env) (w : world) :
  exists r w',
    get_git_commit_version_change (hd (lit "HEAD") args) rt w = (Ok r, w') /\
    run_script (main (prog :: lit "check-commit" :: args)) rt w
    = match r with
      | Some v => (0%Z, printed w' v)
      | None => (1%Z, printed w' (lit "No version change detected"))
      end.
Proof.
  destruct (get_git_commit_version_change_total (hd (lit "HEAD") args) rt w)
    as [r [w' [E T]]].
  exists r, w'. split; [exact E|].
  main_unfold.
  change (str_eqb (lit "check-commit") (lit "validate")) with false.
  change (str_eqb (lit "check-commit") (lit "check-tag")) with false.
  change (str_eqb (lit "check-commit") (lit "read-version")) with false.
  change (str_eqb (lit "check-commit") (lit "compare")) with false.
  change (str_eqb (lit "check-commit") (lit "check-commit")) with true.
  cbv beta iota.
  destruct args as [|p args]; cbn [hd] in E;
    cbn [List.length Nat.leb Nat.ltb item nth_error];
    rewrite E; (destruct r as [v|]; [|reflexivity]);
    cbn [some_truthy] in T; rewrite T; reflexivity.
Qed.

Lemma main_unknown (prog command : str) (args : list str) (rt : env)
    (w : world) :
  str_eqb command (lit "validate") = false ->
  str_eqb command (lit "check-tag") = false ->
  str_eqb command (lit "read-version") = false ->
  str_eqb command (lit "compare") = false ->
  str_eqb command (lit "check-commit") = false ->
  run_script (main (prog :: command :: args)) rt w
  = (1%Z, printed w (lit "Unknown command: " ++ command)).
Proof.
  intros H1 H2 H3 H4 H5. main_unfold.
  rewrite H1, H2, H3, H4, H5. reflexivity.
Qed.

Lemma str_eqb_neq (a b : str) : a <> b -> str_eqb a b = false.
Proof.
  intros H. unfold str_eqb. destruct (list_eq_dec N.eq_dec a b); congruence.
Qed.

Ltac split_six := split; [|split; [|split; [|split; [|split]]]].

Ltac other_command :=
  let H := fresh in
  intros H;
  first [ cbv in H; discriminate H
        | exfalso; apply H; cbv; auto 10
        | congruence ].

(** C7, as the code has it.  The exit status is 0 or 1.  Without a command
    the usage text is printed and the status is 1.  [validate] and
    [check-tag] take exactly one argument and [compare] exactly two, any
    other count printing that command's usage line with status 1; with
    the right count, [validate] exits 0 exactly for a valid version,
    [check-tag] exits 0 exactly when the tag does not exist, and [compare]
    exits 0 exactly when the comparison returns.  [read-version] and
    [check-commit] check no count: they use their first argument, or
    their default without one, ignore the rest, and exit 0 exactly when a
    version is found.  An unknown command prints a message naming it, not
    the usage text, with status 1. *)
Theorem main_exit_status (argv : list str) (rt : env) (w : world) :
  let status := fst (run_script (main argv) rt w) in
  let out := sys_stdout (snd (run_script (main argv) rt w)) in
  (status = 0 \/ status = 1)%Z /\
  match argv with
  | [] | [_] => status = 1%Z /\ out = sys_stdout w ++ usage
  | _ :: command :: args =>
      (command = lit "validate" ->
       match args with
       | [version] =>
           status = if validate_semantic_version version then 0%Z else 1%Z
       | _ =>
           status = 1%Z /\
           out = sys_stdout w
                 ++ [lit "Usage: python version_utils.py validate <version>"]
       end) /\
      (command = lit "check-tag" ->
       match args with
       | [version] =>
           exists b w',
             git_tag_exists version rt w = (Ok b, w') /\
             status = if b then 1%Z else 0%Z
       | _ =>
           status = 1%Z /\
           out = sys_stdout w
                 ++ [lit "Usage: python version_utils.py check-tag <version>"]
       end) /\
      (command = lit "read-version" ->
       exists r w',
         read_version_from_file (hd (lit "VERSION") args) rt w = (Ok r, w') /\
         status = match r with Some _ => 0%Z | None => 1%Z end) /\
      (command = lit "compare" ->
       match args with
       | [v1; v2] =>
           status = match compare_versions v1 v2 with
                    | Ok _ => 0%Z
                    | Raise _ => 1%Z
                    end
       | _ =>
           status = 1%Z /\
           out = sys_stdout w
                 ++ [lit "Usage: python version_utils.py compare <version1> <version2>"]
       end) /\
      (command = lit "check-commit" ->
       exists r w',
         get_git_commit_version_change (hd (lit "HEAD") args) rt w = (Ok r, w') /\
         status = match r with Some _ => 0%Z | None => 1%Z end) /\
      (~ In command commands ->
       status = 1%Z /\
       out = sys_stdout w ++ [lit "Unknown command: " ++ command])
  end.
Proof.
  cbv zeta.
  destruct argv as [|prog [|command args]].
  - rewrite main_no_command by (simpl; lia). cbn [fst snd sys_stdout]. auto.
  - rewrite main_no_command by (simpl; lia). cbn [fst snd sys_stdout]. auto.
  - destruct (list_eq_dec N.eq_dec command (lit "validate")) as [->|N1].
    { rewrite main_validate.
      split; [|split_six; try other_command; intros _];
        destruct args as [|v [|v' args]];
        try destruct (validate_semantic_version v); cbn [fst snd]; auto. }
    destruct (list_eq_dec N.eq_dec command (lit "check-tag")) as [->|N2].
    { pose proof (main_check_tag prog args rt w) as C.
      destruct args as [|v [|v' args]];
        [rewrite C | destruct C as [[|] [w' [E ->]]] | rewrite C];
        (split; [|split_six; try other_command; intros _]);
        cbn [fst snd]; eauto. }
    destruct (list_eq_dec N.eq_dec command (lit "read-version")) as [->|N3].
    { destruct (main_read_version prog args rt w) as [r [w' [E ->]]].
      split; [|split_six; try other_command; intros _];
        destruct r; cbn [fst snd]; eauto. }
    destruct (list_eq_dec N.eq_dec command (lit "compare")) as [->|N4].
    { destruct (main_compare prog args rt w) as [S O].
      cbv zeta. rewrite S.
      split; [|split_six; try other_command; intros _];
        destruct args as [|v1 [|v2 [|v3 args]]];
        try destruct (compare_versions v1 v2); try rewrite O; auto. }
    destruct (list_eq_dec N.eq_dec command (lit "check-commit")) as [->|N5].
    { destruct (main_check_commit prog args rt w) as [r [w' [E ->]]].
      split; [|split_six; try other_command; intros _];
        destruct r; cbn [fst snd]; eauto. }
    rewrite main_unknown by now apply str_eqb_neq.
    cbn [fst snd printed sys_stdout].
    split; [auto|]. split_six; try congruence. auto.
Qed.

Lemma main_exit_status_witness :
  let rt := one_file (lit "VERSION") (FileText (lit "1.0.0")) in
  let argv := [lit "version_utils.py"; lit "read-version"] in
  fst (run_script (main argv) rt initial) = 0%Z /\
  exists r w',
    read_version_from_file (lit "VERSION") rt initial = (Ok r, w') /\
    fst (run_script (main argv) rt initial)
    = match r with Some _ => 0%Z | None => 1%Z end.
Proof.
  intros rt argv. split; [reflexivity|].
  pose proof (main_exit_status argv rt initial) as H.
  cbv zeta in H. destruct H as [_ [_ [_ [H _]]]].
  apply H. reflexivity.
Defined.

(** C7 as stated fails: [read-version] with two arguments, one more than
    the specification's arity allows, reads the first and exits 0. *)
Lemma main_read_version_ignores_extra_argument :
  let rt := one_file (lit "VERSION") (FileText (lit "1.0.0")) in
  let argv := [lit "version_utils.py"; lit "read-version"; lit "VERSION";
               lit "extra"] in
  spec_arity (lit "read-version") (List.length argv - 2) = false /\
  run_script (main argv) rt initial = (0%Z, printed initial (lit "1.0.0")).
Proof. split; reflexivity. Qed.

(** ** The comparator on its failing inputs *)

(** C1: INFORMATION SEPARATOR FOUR, then "1.2.3", passes the validator,
    which strips the separator, and so does "1.3.0"; yet comparing the
    two returns no -1: [int] does not skip the separator and raises. *)
Theorem compare_versions_separator_left :
  validate_semantic_version (0x1C%N :: lit "1.2.3") = true /\
  validate_semantic_version (lit "1.3.0") = true /\
  strip (0x1C%N :: lit "1.2.3") = lit "1.2.3" /\
  parse_version (lit "1.2.3") = Ok (1, 2, 3)%Z /\
  parse_version (lit "1.3.0") = Ok (1, 3, 0)%Z /\
  lex_lt (1, 2, 3)%Z (1, 3, 0)%Z /\
  compare_versions (0x1C%N :: lit "1.2.3") (lit "1.3.0")
  = Raise (InvalidLiteral [0x1C%N; 0x31%N]).
Proof. repeat split; try reflexivity. unfold lex_lt. lia. Qed.

(** C4: both "2.0.0" and "1.9.9" followed by INFORMATION SEPARATOR ONE
    pass the validator, and the comparison of the two raises a
    ValueError all the same. *)
Theorem compare_versions_raises_on_valid :
  validate_semantic_version (lit "2.0.0") = true /\
  validate_semantic_version (lit "1.9.9" ++ [0x1F%N]) = true /\
  exists e,
    compare_versions (lit "2.0.0") (lit "1.9.9" ++ [0x1F%N]) = Raise e /\
    is_ValueError e = true.
Proof.
  split; [reflexivity|]. split; [reflexivity|].
  eexists. split; reflexivity.
Qed.

(** C9: a version string that passes the validator and does not compare
    equal to itself: the comparison of INFORMATION SEPARATOR THREE, "1.2.3"
    with itself raises instead of returning 0. *)
Theorem compare_versions_not_reflexive :
  validate_semantic_version (0x1D%N :: lit "1.2.3") = true /\
  compare_versions (0x1D%N :: lit "1.2.3") (0x1D%N :: lit "1.2.3")
  = Raise (InvalidLiteral [0x1D%N; 0x31%N]) /\
  compare_versions (0x1D%N :: lit "1.2.3") (0x1D%N :: lit "1.2.3") <> Ok 0%Z.
Proof. repeat split; try reflexivity. discriminate. Qed.

(** ** The comparator away from the separators *)

Example compare_versions_examples :
  compare_versions (lit "1.2.3") (lit "1.2.3") = Ok 0%Z /\
  compare_versions (lit "1.2.3") (lit "1.3.0") = Ok (-1)%Z /\
  compare_versions (lit "2.0.0") (lit "1.9.9") = Ok 1%Z /\
  is_ValueError_raised (compare_versions (lit "1.2") (lit "1.2.3")) = true /\
  is_ValueError_raised (compare_versions (lit "1.2.3") (lit "abc")) = true.
Proof. repeat split; reflexivity. Qed.

(** Valid versions with no separator around them and within the digit
    limit always compare. *)
Theorem compare_versions_returns (v1 v2 : str) :
  validate_semantic_version v1 = true -> separator_free v1 = true ->
  within_digit_limit v1 = true ->
  validate_semantic_version v2 = true -> separator_free v2 = true ->
  within_digit_limit v2 = true ->
  exists z, compare_versions v1 v2 = Ok z /\ (z = -1 \/ z = 0 \/ z = 1)%Z.
Proof.
  intros H1 S1 L1 H2 S2 L2.
  destruct (compare_versions_lexicographic v1 v2 H1 S1 L1 H2 S2 L2)
    as [t1 [t2 [_ [_ [L [E G]]]]]].
  destruct (lex_trichotomy t1 t2) as [H | [H | H]];
    [rewrite (L H) | rewrite (E H) | rewrite (G H)]; eexists; split;
    try reflexivity; auto.
Qed.

(** X7: on arguments with no separator and no dot-separated group of
    more than 4300 characters, the comparison raises exactly when one of
    them fails validation. *)
Theorem compare_versions_raises_iff (v1 v2 : str) :
  separator_free v1 = true -> within_digit_limit v1 = true ->
  separator_free v2 = true -> within_digit_limit v2 = true ->
  is_ValueError_raised (compare_versions v1 v2) = true <->
  validate_semantic_version v1 = false \/ validate_semantic_version v2 = false.
Proof.
  intros S1 L1 S2 L2. split.
  - intros R.
    destruct (validate_semantic_version v1) eqn:H1; [|auto].
    destruct (validate_semantic_version v2) eqn:H2; [|auto].
    destruct (compare_versions_returns v1 v2 H1 S1 L1 H2 S2 L2) as [z [E _]].
    rewrite E in R. discriminate.
  - intros H. now rewrite compare_versions_invalid.
Qed.

(** X8: two valid versions with no separator around them and no group of
    more than 4300 digits always compare; swapping them negates the
    result, and the result is 0 exactly when the two parse into the same
    triple. *)
Theorem compare_versions_order (v1 v2 : str) :
  validate_semantic_version v1 = true -> separator_free v1 = true ->
  within_digit_limit v1 = true ->
  validate_semantic_version v2 = true -> separator_free v2 = true ->
  within_digit_limit v2 = true ->
  exists z,
    compare_versions v1 v2 = Ok z /\
    compare_versions v2 v1 = Ok (- z)%Z /\
    (z = 0%Z <-> parse_version v1 = parse_version v2).
Proof.
  intros H1 S1 L1 H2 S2 L2.
  destruct (compare_versions_lexicographic v1 v2 H1 S1 L1 H2 S2 L2)
    as [t1 [t2 [P1 [P2 [L [E G]]]]]].
  destruct (compare_parsed v2 v1 t2 t1 H2 H1 P2 P1) as [L' [E' G']].
  rewrite P1, P2.
  destruct (lex_trichotomy t1 t2) as [H | [H | H]].
  - exists (-1)%Z. rewrite (L H), (G' H). repeat split; try discriminate.
    intros X. injection X as ->. now apply lex_irrefl in H.
  - exists 0%Z. rewrite (E H), (E' (eq_sym H)). subst. repeat split.
  - exists 1%Z. rewrite (G H), (L' H). repeat split; try discriminate.
    intros X. injection X as ->. now apply lex_irrefl in H.
Qed.

(** * Further properties of the script *)

(** ** Shared lemmas *)

Lemma strip_padded (l s r : str) :
  forallb Py_UNICODE_ISSPACE l = true -> forallb Py_UNICODE_ISSPACE r = true ->
  strip (l ++ s ++ r) = strip s.
Proof.
  intros Hl Hr.
  destruct (strip_with_split Py_UNICODE_ISSPACE s) as [l' [r' [E [Hl' [Hr' T]]]]].
  fold (strip s) in E, T. rewrite E at 1.
  replace (l ++ (l' ++ strip s ++ r') ++ r)
    with ((l ++ l') ++ strip s ++ (r' ++ r)) by now rewrite <- !app_assoc.
  apply strip_with_unique; [| |exact T]; rewrite forallb_app;
    [now rewrite Hl, Hl' | now rewrite Hr', Hr].
Qed.

Lemma strip_blank (s : str) :
  forallb Py_UNICODE_ISSPACE s = true -> strip s = [].
Proof.
  intros H.
  pose proof (strip_with_unique Py_UNICODE_ISSPACE s [] [] H eq_refl eq_refl) as E.
  now rewrite app_nil_r in E.
Qed.

Lemma separator_space (c : char) :
  separator c = true -> Py_UNICODE_ISSPACE c = true.
Proof.
  unfold separator, Py_UNICODE_ISSPACE. intros H.
  apply andb_prop in H. destruct H as [H1 H2].
  apply N.leb_le in H1, H2.
  assert (E : ((0x1C <=? c)%N && (c <=? 0x20)%N) = true).
  { rewrite andb_true_iff, !N.leb_le. lia. }
  rewrite E. now rewrite orb_true_r.
Qed.

Lemma number_separator_free (g : str) :
  number_b g = true -> separator_free g = true.
Proof.
  intros H. apply number_decimal in H. destruct H as [H _].
  unfold separator_free. rewrite forallb_forall in *. intros x Hx.
  apply negb_true_iff. destruct (separator x) eqn:E; [|reflexivity].
  apply separator_space in E. rewrite (decimal_not_space x (H x Hx)) in E.
  discriminate.
Qed.

(** The stripped form of a valid string holds no separator. *)
Lemma valid_strip_separator_free (s : str) :
  validate_semantic_version s = true -> separator_free (strip s) = true.
Proof.
  intros H. destruct (valid_decompose s H)
    as [l [a [b [c [r [_ [E [_ [_ [Ha [Hb Hc]]]]]]]]]]].
  rewrite E. unfold dotted.
  rewrite separator_free_app. cbn [separator_free forallb].
  fold (separator_free (b ++ 0x2E%N :: c)).
  rewrite separator_free_app. cbn [separator_free forallb].
  fold (separator_free c).
  now rewrite !number_separator_free by assumption.
Qed.

(** A valid string with no separator parses as its stripped form does,
    to the same triple or to the same exception. *)
Lemma parse_version_strip (s : str) :
  validate_semantic_version s = true -> separator_free s = true ->
  parse_version (strip s) = parse_version s.
Proof.
  intros H Hsep. destruct (valid_decompose s H)
    as [l [a [b [c [r [-> [E [Hl [Hr [Ha [Hb Hc]]]]]]]]]]].
  rewrite !separator_free_app in Hsep.
  apply andb_prop in Hsep. destruct Hsep as [Sl Hsep].
  apply andb_prop in Hsep. destruct Hsep as [_ Sr].
  rewrite E, parse_version_groups by assumption.
  pose proof (parse_version_groups [] a b c [] eq_refl eq_refl eq_refl eq_refl
                Ha Hb Hc) as P.
  cbn [app] in P. now rewrite app_nil_r in P.
Qed.

Lemma three_way_lex (x y : Z * Z * Z) :
  (lex_lt x y -> three_way x y = (-1)%Z) /\
  (x = y -> three_way x y = 0%Z) /\
  (lex_lt y x -> three_way x y = 1%Z).
Proof.
  destruct x as [[a b] c], y as [[a' b'] c']. unfold lex_lt, three_way.
  destruct (Z.compare_spec a a'), (Z.compare_spec b b'), (Z.compare_spec c c');
    (split; [|split]); intros X; try reflexivity; exfalso;
    first [lia | injection X as E1 E2 E3; lia].
Qed.

(** What a returned comparison tells about its arguments. *)
Lemma compare_versions_ok (v1 v2 : str) (z : Z) :
  compare_versions v1 v2 = Ok z ->
  validate_semantic_version v1 = true /\
  validate_semantic_version v2 = true /\
  exists t1 t2,
    parse_version v1 = Ok t1 /\ parse_version v2 = Ok t2 /\
    z = three_way t1 t2.
Proof.
  unfold compare_versions.
  destruct (validate_semantic_version v1) eqn:H1; [|discriminate].
  destruct (validate_semantic_version v2) eqn:H2; [|discriminate].
  cbn [negb orb].
  destruct (parse_version v1) as [t1|e1]; [|discriminate].
  destruct (parse_version v2) as [t2|e2]; [|discriminate].
  cbn [rbind]. intros H. split; [reflexivity|]. split; [reflexivity|].
  exists t1, t2. split; [reflexivity|]. split; [reflexivity|].
  destruct (three_way_lex t1 t2) as [L [E G]].
  destruct (tuple_lt t1 t2) eqn:T1.
  - apply tuple_lt_lex in T1. rewrite (L T1). congruence.
  - destruct (tuple_gt t1 t2) eqn:T2.
    + apply tuple_gt_lex in T2. rewrite (G T2). congruence.
    + destruct (lex_trichotomy t1 t2) as [X | [X | X]].
      * apply tuple_lt_lex in X. congruence.
      * rewrite (E X). congruence.
      * apply tuple_gt_lex in X. congruence.
Qed.

Lemma compare_versions_parsed (v1 v2 : str) (t1 t2 : Z * Z * Z) :
  validate_semantic_version v1 = true ->
  validate_semantic_version v2 = true ->
  parse_version v1 = Ok t1 -> parse_version v2 = Ok t2 ->
  compare_versions v1 v2 = Ok (three_way t1 t2).
Proof.
  intros H1 H2 P1 P2.
  destruct (compare_parsed v1 v2 t1 t2 H1 H2 P1 P2) as [L [E G]].
  destruct (three_way_lex t1 t2) as [L' [E' G']].
  destruct (lex_trichotomy t1 t2) as [X | [X | X]].
  - now rewrite (L X), (L' X).
  - now rewrite (E X), (E' X).
  - now rewrite (G X), (G' X).
Qed.

Lemma three_way_cases (x y : Z * Z * Z) :
  (three_way x y = (-1)%Z /\ lex_lt x y) \/
  (three_way x y = 0%Z /\ x = y) \/
  (three_way x y = 1%Z /\ lex_lt y x).
Proof.
  destruct (three_way_lex x y) as [L [E G]].
  destruct (lex_trichotomy x y) as [X | [X | X]]; auto.
Qed.

Lemma three_way_swap (x y : Z * Z * Z) : three_way y x = (- three_way x y)%Z.
Proof.
  destruct (three_way_lex y x) as [L [E G]].
  destruct (three_way_cases x y) as [[-> X] | [[-> X] | [-> X]]].
  - now rewrite (G X).
  - now rewrite (E (eq_sym X)).
  - now rewrite (L X).
Qed.

Lemma lex_trans (x y z : Z * Z * Z) : lex_lt x y -> lex_lt y z -> lex_lt x z.
Proof.
  destruct x as [[a b] c], y as [[a' b'] c'], z as [[a'' b''] c''].
  unfold lex_lt. lia.
Qed.

Lemma three_way_trans (x y z : Z * Z * Z) :
  three_way x y = three_way y z -> three_way x z = three_way x y.
Proof.
  destruct (three_way_lex x z) as [L [E G]].
  destruct (three_way_cases x y) as [[-> X] | [[-> X] | [-> X]]];
    destruct (three_way_cases y z) as [[-> Y] | [[-> Y] | [-> Y]]];
    try discriminate; intros _.
  - apply L. eapply lex_trans; eassumption.
  - apply E. congruence.
  - apply G. eapply lex_trans; eassumption.
Qed.

(** ** The validator *)

(** X1: the validator accepts exactly the strings whose stripped form is
    three numbers separated by two dots, a number being a lone ASCII zero
    or an ASCII digit from one to nine followed by any decimal digits;
    nothing may follow the third number, not even the newline that the
    pattern's end anchor would let pass. *)
Theorem validator_language (s : str) :
  validate_semantic_version s = true <->
  exists a b c,
    strip s = dotted a b c /\
    number_b a = true /\ number_b b = true /\ number_b c = true.
Proof. exact (validate_shape s). Qed.

Lemma validate_ascii_witness :
  forallb (fun c => (c <? 128)%N) (lit " 1.2.3 ") = true /\
  (validate_semantic_version (lit " 1.2.3 ") = true <->
   spec_version_format (strip (lit " 1.2.3 "))).
Proof.
  split; [reflexivity|]. apply (validate_ascii (lit " 1.2.3 ")). reflexivity.
Defined.

(** X3: white space put before or after a string does not change whether
    it validates. *)
Theorem validate_padding (l s r : str) :
  forallb Py_UNICODE_ISSPACE l = true -> forallb Py_UNICODE_ISSPACE r = true ->
  validate_semantic_version (l ++ s ++ r) = validate_semantic_version s.
Proof.
  intros Hl Hr. unfold validate_semantic_version.
  now rewrite strip_padded.
Qed.

Lemma validate_padding_witness :
  forallb Py_UNICODE_ISSPACE [0x09%N; 0xA0%N] = true /\
  forallb Py_UNICODE_ISSPACE [0x0A%N] = true /\
  validate_semantic_version ([0x09%N; 0xA0%N] ++ lit "1.2.3" ++ [0x0A%N])
  = validate_semantic_version (lit "1.2.3").
Proof.
  split; [reflexivity|]. split; [reflexivity|].
  apply (validate_padding [0x09%N; 0xA0%N] (lit "1.2.3") [0x0A%N]); reflexivity.
Defined.

(** X4: the empty string and every string of white space alone are
    invalid. *)
Theorem validate_blank (s : str) :
  forallb Py_UNICODE_ISSPACE s = true -> validate_semantic_version s = false.
Proof.
  intros H. unfold validate_semantic_version. now rewrite strip_blank.
Qed.

Lemma validate_blank_witness :
  forallb Py_UNICODE_ISSPACE (lit "  ") = true /\
  validate_semantic_version (lit "  ") = false.
Proof.
  split; [reflexivity|]. apply (validate_blank (lit "  ")). reflexivity.
Defined.

(** ** The comparator *)

(** X5: every outcome of a comparison is one of three: it returns -1, 0
    or 1, and then both arguments are valid; or it raises the script's
    ValueError with its fixed message, and then an argument is invalid;
    or it raises the ValueError of [int], and then both arguments are
    valid.  No IndexError and no other exception leaves it. *)
Theorem compare_versions_outcomes (v1 v2 : str) :
  match compare_versions v1 v2 with
  | Ok z =>
      (z = -1 \/ z = 0 \/ z = 1)%Z /\
      validate_semantic_version v1 = true /\
      validate_semantic_version v2 = true
  | Raise (ValueError msg) =>
      msg = lit "Both versions must be valid semantic versions" /\
      (validate_semantic_version v1 = false \/
       validate_semantic_version v2 = false)
  | Raise (InvalidLiteral _) =>
      validate_semantic_version v1 = true /\
      validate_semantic_version v2 = true
  | Raise _ => False
  end.
Proof.
  unfold compare_versions.
  destruct (validate_semantic_version v1) eqn:H1; [|cbn; auto].
  destruct (validate_semantic_version v2) eqn:H2; [|cbn; auto].
  cbn [negb orb].
  destruct (parse_version_outcome v1 H1) as [[t1 ->] | [p ->]]; [|cbn; auto].
  destruct (parse_version_outcome v2 H2) as [[t2 ->] | [p ->]]; [|cbn; auto].
  cbn [rbind].
  destruct (tuple_lt t1 t2); [auto|]. destruct (tuple_gt t1 t2); auto.
Qed.

(** X6: valid versions with no separator around them and no group of more
    than 4300 digits are compared by value, not as text: the result is
    the three-way lexicographic comparison of the numbers that the three
    groups of each stripped string spell. *)
Theorem compare_versions_by_value (v1 v2 : str) :
  validate_semantic_version v1 = true -> separator_free v1 = true ->
  within_digit_limit v1 = true ->
  validate_semantic_version v2 = true -> separator_free v2 = true ->
  within_digit_limit v2 = true ->
  exists a1 b1 c1 a2 b2 c2,
    strip v1 = dotted a1 b1 c1 /\ strip v2 = dotted a2 b2 c2 /\
    forallb number_b [a1; b1; c1; a2; b2; c2] = true /\
    compare_versions v1 v2
    = Ok (three_way
            (decimal_value a1, decimal_value b1, decimal_value c1)
            (decimal_value a2, decimal_value b2, decimal_value c2)).
Proof.
  intros H1 S1 L1 H2 S2 L2.
  destruct (parse_version_valid v1 H1 S1 L1)
    as [a1 [b1 [c1 [E1 [A1 [B1 [C1 P1]]]]]]].
  destruct (parse_version_valid v2 H2 S2 L2)
    as [a2 [b2 [c2 [E2 [A2 [B2 [C2 P2]]]]]]].
  exists a1, b1, c1, a2, b2, c2. split; [exact E1|]. split; [exact E2|].
  split; [cbn [forallb]; now rewrite A1, B1, C1, A2, B2, C2|].
  now apply compare_versions_parsed.
Qed.

Lemma compare_versions_by_value_witness :
  validate_semantic_version (lit "1.10.0") = true /\
  separator_free (lit "1.10.0") = true /\
  within_digit_limit (lit "1.10.0") = true /\
  validate_semantic_version (lit " 1.9.0") = true /\
  separator_free (lit " 1.9.0") = true /\
  within_digit_limit (lit " 1.9.0") = true /\
  exists a1 b1 c1 a2 b2 c2,
    strip (lit "1.10.0") = dotted a1 b1 c1 /\
    strip (lit " 1.9.0") = dotted a2 b2 c2 /\
    forallb number_b [a1; b1; c1; a2; b2; c2] = true /\
    compare_versions (lit "1.10.0") (lit " 1.9.0")
    = Ok (three_way
            (decimal_value a1, decimal_value b1, decimal_value c1)
            (decimal_value a2, decimal_value b2, decimal_value c2)).
Proof.
  split; [reflexivity|]. split; [reflexivity|]. split; [reflexivity|].
  split; [reflexivity|]. split; [reflexivity|]. split; [reflexivity|].
  apply (compare_versions_by_value (lit "1.10.0") (lit " 1.9.0"));
    reflexivity.
Defined.

Lemma compare_versions_raises_iff_witness :
  separator_free (lit "1.2") = true /\ within_digit_limit (lit "1.2") = true /\
  separator_free (lit "1.2.3") = true /\
  within_digit_limit (lit "1.2.3") = true /\
  (is_ValueError_raised (compare_versions (lit "1.2") (lit "1.2.3")) = true <->
   validate_semantic_version (lit "1.2") = false \/
   validate_semantic_version (lit "1.2.3") = false).
Proof.
  split; [reflexivity|]. split; [reflexivity|]. split; [reflexivity|].
  split; [reflexivity|].
  apply (compare_versions_raises_iff (lit "1.2") (lit "1.2.3")); reflexivity.
Defined.

Lemma compare_versions_order_witness :
  validate_semantic_version (lit "2.0.0") = true /\
  separator_free (lit "2.0.0") = true /\
  within_digit_limit (lit "2.0.0") = true /\
  validate_semantic_version (lit "1.9.9") = true /\
  separator_free (lit "1.9.9") = true /\
  within_digit_limit (lit "1.9.9") = true /\
  exists z,
    compare_versions (lit "2.0.0") (lit "1.9.9") = Ok z /\
    compare_versions (lit "1.9.9") (lit "2.0.0") = Ok (- z)%Z /\
    (z = 0%Z <-> parse_version (lit "2.0.0") = parse_version (lit "1.9.9")).
Proof.
  split; [reflexivity|]. split; [reflexivity|]. split; [reflexivity|].
  split; [reflexivity|]. split; [reflexivity|]. split; [reflexivity|].
  apply (compare_versions_order (lit "2.0.0") (lit "1.9.9")); reflexivity.
Defined.

(** X25: a group of more than 4300 digits cannot be compared: when both
    arguments are valid and have no separator around them, and one of
    them has such a group, the comparison raises the ValueError that
    [int] raises on a run of digits over its limit. *)
Theorem compare_versions_digit_limit (v1 v2 : str) :
  validate_semantic_version v1 = true -> separator_free v1 = true ->
  validate_semantic_version v2 = true -> separator_free v2 = true ->
  within_digit_limit v1 = false \/ within_digit_limit v2 = false ->
  exists digits,
    compare_versions v1 v2 = Raise (InvalidLiteral digits) /\ over_limit digits.
Proof.
  intros H1 S1 H2 S2 L.
  unfold compare_versions. rewrite H1, H2. cbn [negb orb].
  destruct (within_digit_limit v1) eqn:L1.
  - destruct (parse_version_valid v1 H1 S1 L1) as [a [b [c [_ [_ [_ [_ ->]]]]]]].
    cbn [rbind].
    destruct L as [L | L]; [discriminate L|].
    destruct (parse_version_over_limit v2 H2 S2 L) as [d [-> O]].
    exists d. split; [reflexivity | exact O].
  - destruct (parse_version_over_limit v1 H1 S1 L1) as [d [-> O]].
    exists d. split; [reflexivity | exact O].
Qed.

Lemma long_version_valid : validate_semantic_version long_version = true.
Proof.
  apply validate_shape.
  assert (E : strip long_version = long_version) by (vm_compute; reflexivity).
  rewrite E.
  exists (0x31%N :: repeat 0x30%N 4300), (lit "0"), (lit "0").
  split; [reflexivity|]. split; [vm_compute; reflexivity|].
  split; reflexivity.
Qed.

Lemma compare_versions_digit_limit_witness :
  validate_semantic_version long_version = true /\
  separator_free long_version = true /\
  validate_semantic_version (lit "1.0.0") = true /\
  separator_free (lit "1.0.0") = true /\
  within_digit_limit long_version = false /\
  exists digits,
    compare_versions long_version (lit "1.0.0")
    = Raise (InvalidLiteral digits) /\
    over_limit digits.
Proof.
  assert (V : validate_semantic_version long_version = true)
    by exact long_version_valid.
  assert (S : separator_free long_version = true) by (vm_compute; reflexivity).
  assert (L : within_digit_limit long_version = false)
    by (vm_compute; reflexivity).
  split; [exact V|]. split; [exact S|]. split; [reflexivity|].
  split; [reflexivity|]. split; [exact L|].
  exact (compare_versions_digit_limit long_version (lit "1.0.0") V S eq_refl
           eq_refl (or_introl L)).
Defined.

(** X9: whenever a comparison returns, the comparison of the same two
    strings the other way round returns the opposite result. *)
Theorem compare_versions_swap (v1 v2 : str) (z : Z) :
  compare_versions v1 v2 = Ok z -> compare_versions v2 v1 = Ok (- z)%Z.
Proof.
  intros H. apply compare_versions_ok in H.
  destruct H as [H1 [H2 [t1 [t2 [P1 [P2 ->]]]]]].
  rewrite (compare_versions_parsed v2 v1 t2 t1 H2 H1 P2 P1).
  now rewrite three_way_swap.
Qed.

Lemma compare_versions_swap_witness :
  compare_versions (lit "1.2.3") (lit "1.3.0") = Ok (-1)%Z /\
  compare_versions (lit "1.3.0") (lit "1.2.3") = Ok (- -1)%Z.
Proof.
  split; [reflexivity|].
  apply (compare_versions_swap (lit "1.2.3") (lit "1.3.0") (-1)%Z).
  reflexivity.
Defined.

(** X10: returned comparisons chain: when comparing v1 with v2 and v2 with
    v3 return the same result, comparing v1 with v3 returns it too, and a
    result of 0 on one side hands the other side's result on. *)
Theorem compare_versions_transitive (v1 v2 v3 : str) (x y : Z) :
  compare_versions v1 v2 = Ok x -> compare_versions v2 v3 = Ok y ->
  (x = y -> compare_versions v1 v3 = Ok x) /\
  (x = 0%Z -> compare_versions v1 v3 = Ok y) /\
  (y = 0%Z -> compare_versions v1 v3 = Ok x).
Proof.
  intros H12 H23.
  apply compare_versions_ok in H12, H23.
  destruct H12 as [H1 [H2 [t1 [t2 [P1 [P2 ->]]]]]].
  destruct H23 as [_ [H3 [t2' [t3 [P2' [P3 ->]]]]]].
  rewrite P2 in P2'. injection P2' as <-.
  rewrite (compare_versions_parsed v1 v3 t1 t3 H1 H3 P1 P3).
  split; [|split]; intros E.
  - f_equal. now apply three_way_trans.
  - destruct (three_way_cases t1 t2) as [[X _] | [[_ X] | [X _]]];
      [rewrite X in E; discriminate | now subst | rewrite X in E; discriminate].
  - destruct (three_way_cases t2 t3) as [[X _] | [[_ X] | [X _]]];
      [rewrite X in E; discriminate | now subst | rewrite X in E; discriminate].
Qed.

Lemma compare_versions_transitive_witness :
  compare_versions (lit "1.2.3") (lit "1.3.0") = Ok (-1)%Z /\
  compare_versions (lit "1.3.0") (lit "2.0.0") = Ok (-1)%Z /\
  compare_versions (lit "1.2.3") (lit "2.0.0") = Ok (-1)%Z.
Proof.
  split; [reflexivity|]. split; [reflexivity|].
  exact (proj1 (compare_versions_transitive (lit "1.2.3") (lit "1.3.0")
                  (lit "2.0.0") (-1)%Z (-1)%Z eq_refl eq_refl) eq_refl).
Defined.

(** X11: on arguments with no separator the comparison sees only the
    stripped strings: comparing the arguments and comparing their stripped
    forms give the same outcome, be it a result or the ValueError. *)
Theorem compare_versions_strip (v1 v2 : str) :
  separator_free v1 = true -> separator_free v2 = true ->
  compare_versions v1 v2 = compare_versions (strip v1) (strip v2).
Proof.
  intros S1 S2. unfold compare_versions. rewrite !validate_strip.
  destruct (validate_semantic_version v1) eqn:H1; [|reflexivity].
  destruct (validate_semantic_version v2) eqn:H2; [|reflexivity].
  cbn [negb orb].
  now rewrite !parse_version_strip by assumption.
Qed.

Lemma compare_versions_strip_witness :
  separator_free (lit " 1.2.3 ") = true /\
  separator_free (lit "1.2.3" ++ [0x0A%N]) = true /\
  compare_versions (lit " 1.2.3 ") (lit "1.2.3" ++ [0x0A%N])
  = compare_versions (strip (lit " 1.2.3 ")) (strip (lit "1.2.3" ++ [0x0A%N])).
Proof.
  split; [reflexivity|]. split; [reflexivity|].
  apply (compare_versions_strip (lit " 1.2.3 ") (lit "1.2.3" ++ [0x0A%N]));
    reflexivity.
Defined.

Lemma within_limit_strip (v : str) :
  within_digit_limit (strip v) = within_digit_limit v.
Proof.
  unfold within_digit_limit, strip. now rewrite strip_with_idempotent.
Qed.

Lemma stripped_valid_compares (v1 v2 : str) :
  validate_semantic_version v1 = true -> within_digit_limit v1 = true ->
  validate_semantic_version v2 = true -> within_digit_limit v2 = true ->
  exists z,
    compare_versions (strip v1) (strip v2) = Ok z /\ (z = -1 \/ z = 0 \/ z = 1)%Z.
Proof.
  intros H1 L1 H2 L2. apply compare_versions_returns.
  - now rewrite validate_strip.
  - now apply valid_strip_separator_free.
  - now rewrite within_limit_strip.
  - now rewrite validate_strip.
  - now apply valid_strip_separator_free.
  - now rewrite within_limit_strip.
Qed.

(** X12: two valid strings with no group of more than 4300 digits always
    compare once they are stripped, whatever white space surrounded them:
    the comparison of the stripped forms returns -1, 0 or 1. *)
Theorem compare_versions_stripped_returns (v1 v2 : str) :
  validate_semantic_version v1 = true -> within_digit_limit v1 = true ->
  validate_semantic_version v2 = true -> within_digit_limit v2 = true ->
  exists z,
    compare_versions (strip v1) (strip v2) = Ok z /\ (z = -1 \/ z = 0 \/ z = 1)%Z.
Proof. exact (stripped_valid_compares v1 v2). Qed.

Lemma compare_versions_stripped_returns_witness :
  validate_semantic_version (0x1C%N :: lit "1.2.3") = true /\
  within_digit_limit (0x1C%N :: lit "1.2.3") = true /\
  validate_semantic_version (lit "1.3.0" ++ [0x1F%N]) = true /\
  within_digit_limit (lit "1.3.0" ++ [0x1F%N]) = true /\
  exists z,
    compare_versions (strip (0x1C%N :: lit "1.2.3"))
      (strip (lit "1.3.0" ++ [0x1F%N])) = Ok z /\
    (z = -1 \/ z = 0 \/ z = 1)%Z.
Proof.
  split; [reflexivity|]. split; [reflexivity|]. split; [reflexivity|].
  split; [reflexivity|].
  apply (compare_versions_stripped_returns (0x1C%N :: lit "1.2.3")
           (lit "1.3.0" ++ [0x1F%N])); reflexivity.
Defined.

(** ** The readers and the comparator together *)

Lemma handed_out_stripped (v : str) :
  handed_out v -> exists text, validate_semantic_version text = true /\ v = strip text.
Proof.
  intros [arg [rt [w [w' [H | H]]]]].
  - pose proof (read_version_from_file_cases arg rt w) as C.
    destruct (read_file rt arg) as [text| |text];
      [destruct (validate_semantic_version text) eqn:V| |];
      rewrite C in H; try discriminate.
    injection H as <- _. eauto.
  - pose proof (get_git_commit_version_change_cases arg rt w) as C.
    cbv zeta in C.
    destruct (run_process rt (diff_command arg)) as [rc files|text];
      [destruct (rc =? 0)%Z;
       [destruct (version_file_changed files);
        [destruct (run_process rt (show_command arg)) as [rc' content|text];
         [destruct (rc' =? 0)%Z;
          [destruct (validate_semantic_version content) eqn:V|]|]|]|]|];
      rewrite C in H; try discriminate.
    injection H as <- _. eauto.
Qed.

(** X13: versions handed out by the file reader or by the commit detector
    can be compared as they are, provided no group of theirs has more
    than 4300 digits: the comparison of any two of them returns -1, 0 or
    1, and each compares equal to itself. *)
Theorem handed_out_versions_compare (v1 v2 : str) :
  handed_out v1 -> within_digit_limit v1 = true ->
  handed_out v2 -> within_digit_limit v2 = true ->
  (exists z,
      compare_versions v1 v2 = Ok z /\ (z = -1 \/ z = 0 \/ z = 1)%Z) /\
  compare_versions v1 v1 = Ok 0%Z.
Proof.
  intros H1 L1 H2 L2.
  apply handed_out_stripped in H1, H2.
  destruct H1 as [t1 [V1 ->]], H2 as [t2 [V2 ->]].
  rewrite within_limit_strip in L1, L2.
  split; [now apply stripped_valid_compares|].
  destruct (stripped_valid_compares t1 t1 V1 L1 V1 L1) as [z [E _]].
  pose proof E as E'. apply compare_versions_ok in E'.
  destruct E' as [_ [_ [u1 [u2 [P1 [P2 ->]]]]]].
  rewrite P1 in P2. injection P2 as <-. rewrite E. f_equal.
  destruct (three_way_lex u1 u1) as [_ [X _]]. now apply X.
Qed.

Lemma handed_out_versions_compare_witness :
  handed_out (lit "1.0.0") /\ within_digit_limit (lit "1.0.0") = true /\
  handed_out (lit "1.2.3") /\ within_digit_limit (lit "1.2.3") = true /\
  (exists z,
      compare_versions (lit "1.0.0") (lit "1.2.3") = Ok z /\
      (z = -1 \/ z = 0 \/ z = 1)%Z) /\
  compare_versions (lit "1.0.0") (lit "1.0.0") = Ok 0%Z.
Proof.
  assert (H1 : handed_out (lit "1.0.0")).
  { exists (lit "VERSION"), release_checkout, initial, initial.
    left. reflexivity. }
  assert (H2 : handed_out (lit "1.2.3")).
  { exists (lit "HEAD"), release_checkout, initial.
    eexists. right. reflexivity. }
  split; [exact H1|]. split; [reflexivity|].
  split; [exact H2|]. split; [reflexivity|].
  exact (handed_out_versions_compare (lit "1.0.0") (lit "1.2.3")
           H1 eq_refl H2 eq_refl).
Defined.

(** ** What the operations do to the world *)

Lemma read_effects (file_path : str) (rt : env) (w : world) :
  exists r w',
    read_version_from_file file_path rt w = (Ok r, w') /\
    sys_stderr w' = sys_stderr w /\ spawned w' = spawned w /\
    match r with
    | Some _ => sys_stdout w' = sys_stdout w
    | None => exists line, sys_stdout w' = sys_stdout w ++ [line]
    end.
Proof.
  pose proof (read_version_from_file_cases file_path rt w) as C.
  destruct (read_file rt file_path) as [text| |text];
    [destruct (validate_semantic_version text)| |];
    eexists; eexists; (split; [exact C|]);
    cbn [sys_stdout sys_stderr spawned]; eauto.
Qed.

Lemma tag_effects (version : str) (rt : env) (w : world) :
  let local := run_process rt (local_tag_query version) in
  let remote := run_process rt (remote_tag_query version) in
  exists b w',
    git_tag_exists version rt w = (Ok b, w') /\
    sys_stderr w' = sys_stderr w /\
    spawned w' = spawned w ++
      (if ran local && negb (tag_listed local)
       then [local_tag_query version; remote_tag_query version]
       else [local_tag_query version]) /\
    (ran local = true -> tag_listed local = true \/ ran remote = true ->
     sys_stdout w' = sys_stdout w).
Proof.
  intros local remote.
  pose proof (git_tag_exists_cases version rt w) as C. cbv zeta in C.
  fold local in C. fold remote in C.
  destruct local as [rc out|text];
    [destruct (tag_listed (Completed rc out)) eqn:L;
     [|destruct remote as [rc' out'|text]]|];
    eexists; eexists; (split; [exact C|]);
    cbn [sys_stdout sys_stderr spawned printed having_run ran andb negb];
    rewrite <- ?app_assoc; (split; [reflexivity|]); (split; [reflexivity|]);
    intros X Y; try reflexivity; try discriminate;
    destruct Y; discriminate.
Qed.

Lemma commit_effects (commit_hash : str) (rt : env) (w : world) :
  let diff := run_process rt (diff_command commit_hash) in
  exists r w',
    get_git_commit_version_change commit_hash rt w = (Ok r, w') /\
    sys_stderr w' = sys_stderr w /\
    spawned w' = spawned w ++
      (match succeeded diff with
       | Some files =>
           if version_file_changed files
           then [diff_command commit_hash; show_command commit_hash]
           else [diff_command commit_hash]
       | None => [diff_command commit_hash]
       end) /\
    (r <> None -> sys_stdout w' = sys_stdout w).
Proof.
  intros diff.
  pose proof (get_git_commit_version_change_cases commit_hash rt w) as C.
  cbv zeta in C. fold diff in C.
  destruct diff as [rc files|text]; cbn [succeeded];
    [destruct (rc =? 0)%Z;
     [destruct (version_file_changed files);
      [destruct (run_process rt (show_command commit_hash)) as [rc' content|text];
       [destruct (rc' =? 0)%Z;
        [destruct (validate_semantic_version content)|]|]|]|]|];
    eexists; eexists; (split; [exact C|]);
    cbn [sys_stdout sys_stderr spawned printed having_run];
    rewrite <- ?app_assoc; (split; [reflexivity|]); (split; [reflexivity|]);
    intros X; try reflexivity; congruence.
Qed.

(** X14: whenever the file reader returns, it has run no command; it
    has printed nothing when it returns a version, and has made exactly
    one call of print when it returns nothing. *)
Theorem read_version_from_file_effects (file_path : str) (rt : env)
    (w w' : world) (r : option str) :
  read_version_from_file file_path rt w = (Ok r, w') ->
  spawned w' = spawned w /\
  match r with
  | Some _ => sys_stdout w' = sys_stdout w
  | None => exists text, sys_stdout w' = sys_stdout w ++ [text]
  end.
Proof.
  intros H.
  destruct (read_effects file_path rt w) as [r0 [w0 [E [_ [S P]]]]].
  rewrite H in E. injection E as <- <-. split; [exact S | exact P].
Qed.

Lemma read_version_from_file_effects_witness :
  let w' := printed initial (lit "Error: missing file not found") in
  read_version_from_file (lit "missing") release_checkout initial
  = (Ok None, w') /\
  spawned w' = spawned initial /\
  exists text, sys_stdout w' = sys_stdout initial ++ [text].
Proof.
  intros w'. split; [reflexivity|].
  apply (read_version_from_file_effects (lit "missing") release_checkout
           initial w' None).
  reflexivity.
Defined.

(** X15: the tag checker asks for the tag "v" followed by its argument as
    it is, valid version or not.  It always runs the local query first,
    and runs the remote query after it exactly when the local query ran
    and did not list the tag: one or two commands, never more.  It writes
    nothing to standard error, and prints nothing unless a query raised. *)
Theorem git_tag_exists_effects (version : str) (rt : env) (w : world) :
  let local := run_process rt (local_tag_query version) in
  let remote := run_process rt (remote_tag_query version) in
  exists b w',
    git_tag_exists version rt w = (Ok b, w') /\
    sys_stderr w' = sys_stderr w /\
    spawned w' = spawned w ++
      (if ran local && negb (tag_listed local)
       then [local_tag_query version; remote_tag_query version]
       else [local_tag_query version]) /\
    (ran local = true -> tag_listed local = true \/ ran remote = true ->
     sys_stdout w' = sys_stdout w).
Proof. exact (tag_effects version rt w). Qed.

(** X16: the commit detector always runs the diff against the parent
    first.  When the diff fails, that is the only command it runs.  When
    the diff succeeds and prints a listing of plain paths, one per line,
    it asks for the content of the version file exactly when VERSION is
    one of the paths listed: one or two commands, never more. *)
Theorem get_git_commit_version_change_effects (commit_hash : str) (rt : env)
    (w : world) :
  let diff := run_process rt (diff_command commit_hash) in
  let after := spawned (snd (get_git_commit_version_change commit_hash rt w)) in
  (succeeded diff = None -> after = spawned w ++ [diff_command commit_hash]) /\
  (forall names,
      succeeded diff = Some (unlines names) ->
      forallb plain_path names = true ->
      (In (lit "VERSION") names ->
       after
       = spawned w ++ [diff_command commit_hash; show_command commit_hash]) /\
      (~ In (lit "VERSION") names ->
       after = spawned w ++ [diff_command commit_hash])).
Proof.
  cbv zeta.
  destruct (commit_effects commit_hash rt w) as [r [w' [E [_ [S _]]]]].
  cbv zeta in S. rewrite E. cbn [snd]. rewrite S. split.
  - intros D. now rewrite D.
  - intros names D P. rewrite D.
    pose proof (changed_iff_listed names P) as L.
    destruct (version_file_changed (unlines names)); split.
    + reflexivity.
    + intros N. exfalso. apply N. now apply L.
    + intros I. apply L in I. discriminate I.
    + reflexivity.
Qed.

Lemma get_git_commit_version_change_effects_witness :
  let names := [lit "README.md"; lit "VERSION"] in
  let after :=
    spawned (snd (get_git_commit_version_change (lit "HEAD") release_commit
                    initial)) in
  succeeded (run_process release_commit (diff_command (lit "HEAD")))
  = Some (unlines names) /\
  forallb plain_path names = true /\
  In (lit "VERSION") names /\
  after
  = spawned initial ++ [diff_command (lit "HEAD"); show_command (lit "HEAD")].
Proof.
  intros names after.
  assert (D : succeeded (run_process release_commit (diff_command (lit "HEAD")))
              = Some (unlines names)) by reflexivity.
  assert (P : forallb plain_path names = true) by reflexivity.
  assert (I : In (lit "VERSION") names) by (right; left; reflexivity).
  split; [exact D|]. split; [exact P|]. split; [exact I|].
  exact (proj1
           (proj2 (get_git_commit_version_change_effects (lit "HEAD")
                     release_commit initial) names D P) I).
Defined.

Lemma version_file_changed_names_witness :
  let names := [lit "README.md"; lit "docs/VERSION"; lit "VERSION"] in
  forallb plain_path names = true /\
  (version_file_changed (unlines names) = true <-> In (lit "VERSION") names).
Proof.
  intros names. split; [reflexivity|].
  apply (version_file_changed_names names). reflexivity.
Defined.

(** X18: a diff that prints nothing, or white space alone, changes no
    version file: the detector returns nothing, having run the diff and
    nothing else, and prints nothing. *)
Theorem get_git_commit_version_change_blank (commit_hash out : str) (rt : env)
    (w : world) :
  run_process rt (diff_command commit_hash) = Completed 0 out ->
  forallb Py_UNICODE_ISSPACE out = true ->
  get_git_commit_version_change commit_hash rt w
  = (Ok None, having_run w (diff_command commit_hash)).
Proof.
  intros D B.
  pose proof (get_git_commit_version_change_cases commit_hash rt w) as C.
  cbv zeta in C. rewrite D in C. cbn [Z.eqb] in C.
  assert (E : version_file_changed out = false).
  { unfold version_file_changed. now rewrite strip_blank. }
  rewrite E in C. exact C.
Qed.

Lemma get_git_commit_version_change_blank_witness :
  let rt := repository [(diff_command (lit "HEAD"), Completed 0 [0x0A%N])] in
  run_process rt (diff_command (lit "HEAD")) = Completed 0 [0x0A%N] /\
  forallb Py_UNICODE_ISSPACE [0x0A%N] = true /\
  get_git_commit_version_change (lit "HEAD") rt initial
  = (Ok None, having_run initial (diff_command (lit "HEAD"))).
Proof.
  intros rt. split; [reflexivity|]. split; [reflexivity|].
  apply (get_git_commit_version_change_blank (lit "HEAD") [0x0A%N] rt initial);
    reflexivity.
Defined.

(** ** The dispatcher's output *)

Lemma main_compare_run (prog v1 v2 : str) (rt : env) (w : world) :
  run_script (main [prog; lit "compare"; v1; v2]) rt w =
  match compare_versions v1 v2 with
  | Ok z =>
      (0%Z,
       printed w (v1 ++ (if (z =? -1)%Z then lit " < "
                         else if (z =? 0)%Z then lit " = "
                         else lit " > ") ++ v2))
  | Raise (ValueError msg) => (1%Z, printed w (lit "Error: " ++ msg))
  | Raise e => (1%Z, printed w (lit "Error: " ++ exn_text rt e))
  end.
Proof.
  main_unfold.
  change (str_eqb (lit "compare") (lit "validate")) with false.
  change (str_eqb (lit "compare") (lit "check-tag")) with false.
  change (str_eqb (lit "compare") (lit "read-version")) with false.
  change (str_eqb (lit "compare") (lit "compare")) with true.
  cbv beta iota.
  pose proof (compare_versions_outcome v1 v2) as O.
  destruct (compare_versions v1 v2) as [z|e].
  - destruct (z =? -1)%Z; [reflexivity|]. destruct (z =? 0)%Z; reflexivity.
  - destruct e; try discriminate; reflexivity.
Qed.

Lemma main_world (argv : list str) (rt : env) (w : world) :
  let w' := snd (run_script (main argv) rt w) in
  sys_stderr w' = sys_stderr w /\
  (nth_error argv 1 <> Some (lit "check-tag") ->
   nth_error argv 1 <> Some (lit "check-commit") ->
   spawned w' = spawned w).
Proof.
  cbv zeta.
  destruct argv as [|prog [|command args]];
    [rewrite main_no_command by (simpl; lia); cbn; auto ..|].
  cbn [nth_error].
  destruct (list_eq_dec N.eq_dec command (lit "validate")) as [->|N1].
  { rewrite main_validate. destruct args as [|v [|v' args]];
      try destruct (validate_semantic_version v); cbn; auto. }
  destruct (list_eq_dec N.eq_dec command (lit "check-tag")) as [->|N2].
  { pose proof (main_check_tag prog args rt w) as C.
    destruct args as [|v [|v' args]];
      [rewrite C; cbn; auto | | rewrite C; cbn; auto].
    destruct C as [b [w' [E ->]]].
    destruct (tag_effects v rt w) as [b0 [w0 [E0 [S _]]]].
    rewrite E in E0. injection E0 as <- <-.
    split; [destruct b; exact S|]. intros N. exfalso. now apply N. }
  destruct (list_eq_dec N.eq_dec command (lit "read-version")) as [->|N3].
  { destruct (main_read_version prog args rt w) as [r [w' [E ->]]].
    destruct (read_effects (hd (lit "VERSION") args) rt w)
      as [r0 [w0 [E0 [S [P _]]]]].
    rewrite E in E0. injection E0 as <- <-.
    destruct r; cbn; auto. }
  destruct (list_eq_dec N.eq_dec command (lit "compare")) as [->|N4].
  { destruct args as [|v1 [|v2 [|v3 args]]]; try (cbn; auto; fail).
    rewrite main_compare_run.
    destruct (compare_versions v1 v2) as [z|e]; [cbn; auto|].
    destruct e; cbn; auto. }
  destruct (list_eq_dec N.eq_dec command (lit "check-commit")) as [->|N5].
  { destruct (main_check_commit prog args rt w) as [r [w' [E ->]]].
    destruct (commit_effects (hd (lit "HEAD") args) rt w)
      as [r0 [w0 [E0 [S _]]]].
    rewrite E in E0. injection E0 as <- <-.
    split; [destruct r; exact S|]. intros _ N. exfalso. now apply N. }
  rewrite main_unknown by now apply str_eqb_neq. cbn. auto.
Qed.

(** X20: only [check-tag] and [check-commit] run the version-control
    tool: with any other command, known or not, and with none, the
    dispatcher runs no command at all. *)
Theorem main_runs_no_command (argv : list str) (rt : env) (w : world) :
  nth_error argv 1 <> Some (lit "check-tag") ->
  nth_error argv 1 <> Some (lit "check-commit") ->
  spawned (snd (run_script (main argv) rt w)) = spawned w.
Proof. exact (proj2 (main_world argv rt w)). Qed.

Lemma main_runs_no_command_witness :
  let argv := [lit "version_utils.py"; lit "read-version"] in
  nth_error argv 1 <> Some (lit "check-tag") /\
  nth_error argv 1 <> Some (lit "check-commit") /\
  spawned (snd (run_script (main argv) release_checkout initial))
  = spawned initial.
Proof.
  intros argv.
  assert (N1 : nth_error argv 1 <> Some (lit "check-tag")) by discriminate.
  assert (N2 : nth_error argv 1 <> Some (lit "check-commit")) by discriminate.
  split; [exact N1|]. split; [exact N2|].
  exact (main_runs_no_command argv release_checkout initial N1 N2).
Defined.

(** X21: when [read-version] exits with status 0, the file it was pointed
    at held a valid version, and all the run did was print that content,
    stripped, as one line on standard output. *)
Theorem main_read_version_output (prog : str) (args : list str) (rt : env)
    (w : world) :
  fst (run_script (main (prog :: lit "read-version" :: args)) rt w) = 0%Z ->
  exists text,
    read_file rt (hd (lit "VERSION") args) = FileText text /\
    validate_semantic_version text = true /\
    run_script (main (prog :: lit "read-version" :: args)) rt w
    = (0%Z, printed w (strip text)).
Proof.
  intros H.
  destruct (main_read_version prog args rt w) as [r [w' [E R]]].
  rewrite R in *. destruct r as [v|]; [|discriminate H].
  pose proof (read_version_from_file_cases (hd (lit "VERSION") args) rt w) as C.
  destruct (read_file rt (hd (lit "VERSION") args)) as [text| |text];
    [destruct (validate_semantic_version text) eqn:V| |];
    rewrite C in E; try discriminate.
  injection E as <- <-. exists text. auto.
Qed.

Lemma main_read_version_output_witness :
  let argv := [lit "version_utils.py"; lit "read-version"] in
  fst (run_script (main argv) release_checkout initial) = 0%Z /\
  exists text,
    read_file release_checkout (lit "VERSION") = FileText text /\
    validate_semantic_version text = true /\
    run_script (main argv) release_checkout initial
    = (0%Z, printed initial (strip text)).
Proof.
  intros argv. split; [reflexivity|].
  apply (main_read_version_output (lit "version_utils.py") [] release_checkout
           initial).
  reflexivity.
Defined.

(** X22: when [check-commit] exits with status 0, the content of the
    version file in the commit is a valid version and all the run printed
    is that content, stripped; and if the diff printed a listing of plain
    paths, one per line, then VERSION is one of them.  With any other
    outcome the status is 1 and the last thing printed is "No version
    change detected".  That is the outcome whenever the diff lists plain
    paths and VERSION is not one of them, and nothing else is printed
    then. *)
Theorem main_check_commit_output (prog : str) (args : list str) (rt : env)
    (w : world) :
  let commit_hash := hd (lit "HEAD") args in
  let diff := run_process rt (diff_command commit_hash) in
  let show := run_process rt (show_command commit_hash) in
  let run := run_script (main (prog :: lit "check-commit" :: args)) rt w in
  (fst run = 0%Z ->
   (exists content,
       succeeded show = Some content /\
       validate_semantic_version content = true /\
       sys_stdout (snd run) = sys_stdout w ++ [strip content]) /\
   (forall names,
       succeeded diff = Some (unlines names) ->
       forallb plain_path names = true -> In (lit "VERSION") names)) /\
  (fst run <> 0%Z ->
   fst run = 1%Z /\
   exists before,
     sys_stdout (snd run)
     = sys_stdout w ++ before ++ [lit "No version change detected"]) /\
  (forall names,
      succeeded diff = Some (unlines names) ->
      forallb plain_path names = true -> ~ In (lit "VERSION") names ->
      fst run = 1%Z /\
      sys_stdout (snd run)
      = sys_stdout w ++ [lit "No version change detected"]).
Proof.
  cbv zeta.
  destruct (main_check_commit prog args rt w) as [r [w' [E ->]]].
  pose proof (get_git_commit_version_change_cases (hd (lit "HEAD") args) rt w)
    as C.
  cbv zeta in C.
  destruct (run_process rt (diff_command (hd (lit "HEAD") args)))
    as [rc files|text]; cbn [succeeded];
    [destruct (rc =? 0)%Z;
     [destruct (version_file_changed files) eqn:Ch;
      [destruct (run_process rt (show_command (hd (lit "HEAD") args)))
         as [rc' content|text]; cbn [succeeded];
       [destruct (rc' =? 0)%Z;
        [destruct (validate_semantic_version content) eqn:V|]|]|]|]|];
    rewrite C in E; injection E as <- <-;
    cbn [fst snd sys_stdout printed having_run];
    (split; [|split];
    [ first
        [ intros X; discriminate X
        | intros _; split;
          [ exists content; auto
          | intros names D P; injection D as ->;
            apply (changed_iff_listed names P); exact Ch ] ]
    | first
        [ intros X; exfalso; apply X; reflexivity
        | intros _; split; [reflexivity|];
          first [ exists []; reflexivity
                | eexists [_]; rewrite <- app_assoc; reflexivity ] ]
    | first
        [ intros names D; discriminate D
        | intros names D P N; injection D as ->; exfalso; apply N;
          apply (changed_iff_listed names P); exact Ch
        | intros names D P N; split; reflexivity ] ]).
Qed.

Lemma main_check_commit_output_witness :
  let names := [lit "README.md"; lit "VERSION"] in
  let run :=
    run_script (main [lit "version_utils.py"; lit "check-commit"])
      release_commit initial in
  fst run = 0%Z /\
  succeeded (run_process release_commit (diff_command (lit "HEAD")))
  = Some (unlines names) /\
  forallb plain_path names = true /\
  In (lit "VERSION") names /\
  exists content,
    succeeded (run_process release_commit (show_command (lit "HEAD")))
    = Some content /\
    validate_semantic_version content = true /\
    sys_stdout (snd run) = sys_stdout initial ++ [strip content].
Proof.
  intros names run.
  assert (S : fst run = 0%Z) by reflexivity.
  assert (D : succeeded (run_process release_commit (diff_command (lit "HEAD")))
              = Some (unlines names)) by reflexivity.
  assert (P : forallb plain_path names = true) by reflexivity.
  pose proof (proj1 (main_check_commit_output (lit "version_utils.py") []
                       release_commit initial) S) as [C L].
  split; [exact S|]. split; [exact D|]. split; [exact P|].
  split; [exact (L names D P) | exact C].
Defined.

(** X23: [compare] with two arguments prints exactly one line and does
    nothing else: the two arguments as they were given with " < ", " = "
    or " > " between them when the comparison returns -1, 0 or 1, with
    status 0; and "Error: " followed by the message of the ValueError
    when it raises, with status 1. *)
Theorem main_compare_output (prog v1 v2 : str) (rt : env) (w : world) :
  run_script (main [prog; lit "compare"; v1; v2]) rt w =
  match compare_versions v1 v2 with
  | Ok z =>
      (0%Z,
       printed w (v1 ++ (if (z =? -1)%Z then lit " < "
                         else if (z =? 0)%Z then lit " = "
                         else lit " > ") ++ v2))
  | Raise (ValueError msg) => (1%Z, printed w (lit "Error: " ++ msg))
  | Raise e => (1%Z, printed w (lit "Error: " ++ exn_text rt e))
  end.
Proof. exact (main_compare_run prog v1 v2 rt w). Qed.

(** ** The tag checker over the tag stores *)














